(** * tg_hacker_news: the synchronisation engine of [main.go]

    A shallow embedding of the Hacker News -> Telegram mirror bot.  The
    in-memory store [b.storage.Stories] is a finite map from item ids to
    stories, the read/write mutex that guards it is part of the state (its
    acquisitions are not re-entrant, exactly as [sync.RWMutex]), the
    snapshot file, the clock, the requests posted to the Telegram API and
    the log are explicit components of the world that every method
    threads through.  The two HTTP collaborators (Hacker News and
    Telegram) are an environment of answers.  Of the variant of the bot
    that keeps its records in a database, the requests it builds are
    embedded too.

    What the embedding leaves out: [json.Marshal] of a request, which
    cannot fail on these structs; the fixed [time.Sleep] after a message;
    the requests to Hacker News, which are not recorded; a nil map, which
    only a snapshot holding [null] for the map could produce.  The
    goroutines of a cycle are run one after the other. *)

From Stdlib Require Import ZArith String Ascii List Bool Lia.
From Stdlib Require Import DecimalString DecimalPos DecimalZ.
From stdpp Require Import gmap.

Local Open Scope Z_scope.

(** ** Constants ([main.go], lines 17-27) *)

Definition BatchSize : Z := 30.
Definition NumCommentsThreshold : Z := 5.
Definition ScoreThreshold : Z := 50.

(** [Hot] is the fire emoji U+1F525, four bytes in UTF-8. *)
Definition Hot : string :=
  String "240"%char (String "159"%char (String "148"%char (String "165"%char EmptyString))).

(** Durations and instants are counted in nanoseconds, as [time.Duration]. *)
Definition Hour : Z := 3600 * 1000000000.
Definition Minute : Z := 60 * 1000000000.
Definition CleanupInterval : Z := 24 * Hour.
Definition PollInterval : Z := 5 * Minute.

(** ** Data model ([main.go], lines 29-102) *)

Record Config := {
  BotKey : string;
  ChatID : string;
  DataPath : string
}.

(** [int64] fields are integers; [LastSave] is an instant. *)
Record Story := {
  ID : Z;
  URL : string;
  Title : string;
  Descendants : Z;
  Score : Z;
  Type_ : string;
  MessageID : Z;
  LastSave : Z
}.

Definition set_MessageID (m : Z) (s : Story) : Story :=
  {| ID := ID s; URL := URL s; Title := Title s; Descendants := Descendants s;
     Score := Score s; Type_ := Type_ s; MessageID := m; LastSave := LastSave s |}.

Definition set_LastSave (t : Z) (s : Story) : Story :=
  {| ID := ID s; URL := URL s; Title := Title s; Descendants := Descendants s;
     Score := Score s; Type_ := Type_ s; MessageID := MessageID s; LastSave := t |}.

Record InlineKeyboardButton := {
  btn_Text : string;
  btn_URL : string
}.

Record InlineKeyboardMarkup := {
  InlineKeyboard : list (list InlineKeyboardButton)
}.

Record SendMessageRequest := {
  send_ChatID : string;
  send_Text : string;
  send_ParseMode : string;
  send_ReplyMarkup : InlineKeyboardMarkup;
  send_DisableNotification : bool
}.

Record SendMessageResponse := {
  send_OK : bool;
  send_Result_MessageID : Z;
  send_ErrorCode : Z;
  send_Description : string
}.

Record EditMessageTextRequest := {
  edit_ChatID : string;
  edit_MessageID : Z;
  edit_Text : string;
  edit_ParseMode : string;
  edit_ReplyMarkup : InlineKeyboardMarkup
}.

Record DeleteMessageRequest := {
  del_ChatID : string;
  del_MessageID : Z
}.

Record DeleteMessageResponse := {
  del_OK : bool;
  del_ErrorCode : Z;
  del_Description : string
}.

(** ** Strings: the library functions the renderer and the classifier use *)

Module Strings.

Local Open Scope string_scope.

(** [strconv.FormatInt(n, 10)] and the verb [%d]. *)
Definition FormatInt (n : Z) : string := NilZero.string_of_int (Z.to_int n).

(** [html.EscapeString]: the five characters the HTML escaper replaces. *)
Definition escapeChar (c : ascii) : string :=
  if Ascii.eqb c "&"%char then "&amp;"
  else if Ascii.eqb c "'"%char then "&#39;"
  else if Ascii.eqb c "<"%char then "&lt;"
  else if Ascii.eqb c ">"%char then "&gt;"
  else if Ascii.eqb c "034"%char then "&#34;"
  else String c EmptyString.

Fixpoint EscapeString (s : string) : string :=
  match s with
  | EmptyString => EmptyString
  | String c rest => escapeChar c ++ EscapeString rest
  end.

(** [strings.Contains s substr]. *)
Fixpoint Contains (s substr : string) : bool :=
  String.prefix substr s ||
  match s with
  | EmptyString => false
  | String _ rest => Contains rest substr
  end.

End Strings.

(** ** The filter ([main.go], lines 198-203) *)

Definition shouldIgnore (s : Story) : bool :=
  negb (String.eqb (Type_ s) "story")
  || (Score s <? ScoreThreshold)
  || (Descendants s <? NumCommentsThreshold)
  || String.eqb (URL s) "".

(** ** Rendering ([main.go], lines 152-158 and 205-228) *)

Module Render.

Local Open Scope string_scope.

Definition TelegramAPIBase : string := "https://api.telegram.org/".

Definition telegramAPI (b : Config) (method : string) : string :=
  TelegramAPIBase ++ BotKey b ++ "/" ++ method.

Definition newsURL (id : Z) : string :=
  "https://news.ycombinator.com/item?id=" ++ Strings.FormatInt id.

Definition scoreSuffix (s : Story) : string :=
  if (100 <? Score s)%Z then " " ++ Hot else "".

Definition commentSuffix (s : Story) : string :=
  if (100 <? Descendants s)%Z then " " ++ Hot else "".

Definition getReplyMarkup (s : Story) : InlineKeyboardMarkup :=
  {| InlineKeyboard :=
       [ [ {| btn_Text := "Score: " ++ Strings.FormatInt (Score s) ++ "+" ++ scoreSuffix s;
              btn_URL := URL s |};
           {| btn_Text := "Comments: " ++ Strings.FormatInt (Descendants s) ++ "+" ++ commentSuffix s;
              btn_URL := newsURL (ID s) |} ] ] |}.

(** The request [sendMessage] builds. *)
Definition sendRequest (b : Config) (s : Story) : SendMessageRequest :=
  {| send_ChatID := ChatID b;
     send_Text := "<b>" ++ Strings.EscapeString (Title s) ++ "</b>  " ++ URL s;
     send_ParseMode := "HTML";
     send_ReplyMarkup := getReplyMarkup s;
     send_DisableNotification := true |}.

(** The request [editMessage] builds. *)
Definition editRequest (b : Config) (s : Story) : EditMessageTextRequest :=
  {| edit_ChatID := ChatID b;
     edit_MessageID := MessageID s;
     edit_Text := "<b>" ++ Strings.EscapeString (Title s) ++ "</b>  " ++ URL s;
     edit_ParseMode := "HTML";
     edit_ReplyMarkup := getReplyMarkup s |}.

(** The request [deleteMessage] builds. *)
Definition deleteRequest (b : Config) (s : Story) : DeleteMessageRequest :=
  {| del_ChatID := ChatID b;
     del_MessageID := MessageID s |}.

End Render.

(** ** Rendering in the sqlite variant ([src/unnamed/part_001]) *)

(** The variant of the bot that keeps its records in a database builds
    its requests in [Bot.sendMessage] (lines 229-235) and
    [Bot.editMessage] (lines 266-272) with the title as it was fetched;
    its [getReplyMarkup] (lines 180-203) is the one above, word for
    word. *)
Module Sqlite.

Local Open Scope string_scope.

Definition sendRequest (b : Config) (s : Story) : SendMessageRequest :=
  {| send_ChatID := ChatID b;
     send_Text := "<b>" ++ Title s ++ "</b>  " ++ URL s;
     send_ParseMode := "HTML";
     send_ReplyMarkup := Render.getReplyMarkup s;
     send_DisableNotification := true |}.

Definition editRequest (b : Config) (s : Story) : EditMessageTextRequest :=
  {| edit_ChatID := ChatID b;
     edit_MessageID := MessageID s;
     edit_Text := "<b>" ++ Title s ++ "</b>  " ++ URL s;
     edit_ParseMode := "HTML";
     edit_ReplyMarkup := Render.getReplyMarkup s |}.

End Sqlite.

(** ** Errors, log lines and collaborator answers *)

Inductive error :=
| ErrOpen                 (* os.Open failed, and not because the file is missing *)
| ErrDecodeSnapshot       (* the JSON decoder rejected the snapshot *)
| ErrCreate               (* os.Create failed *)
| ErrEncode               (* encoder.Encode failed *)
| ErrTopStories
| ErrStoryDetails
| ErrSendPost
| ErrSendDecode
| ErrSendTelegram (code : Z) (description : string)
| ErrEditPost
| ErrDeletePost
| ErrDeleteDecode
| ErrDeleteTelegram (description : string).

Inductive LogLine :=
| WarnLoadFailed (e : error)
| LogBotStarted
| LogDetailsError (id : Z)
| LogSendError (id : Z) (e : error)
| LogSent (id : Z) (title : string)
| LogEditError (id : Z) (e : error)
| LogUpdated (id : Z) (title : string)
| LogDeleteError (id : Z) (e : error)
| LogDeleted (id : Z)
| LogInitialPollError (e : error)
| LogPollError (e : error)
| LogCleanupError (e : error).

(** What an [httpClient.Post] followed by the decoding of the body can
    give: a transport error, a body that does not decode, or a decoded
    body. *)
Inductive Posted (A : Type) :=
| PostError
| BadBody
| Body (a : A).
Arguments PostError {A}.
Arguments BadBody {A}.
Arguments Body {A} a.

(** The requests the bot posts to the Telegram API. *)
Inductive SinkCall :=
| Send (r : SendMessageRequest)
| Edit (r : EditMessageTextRequest)
| Delete (r : DeleteMessageRequest).

(** The two collaborators.  [hn_item id = None] stands for a failed
    [getStoryDetails]; the answer to an edit is the body Telegram sent,
    which has the shape of the answer to a send. *)
Record Env := {
  hn_topstories : option (list Z);
  hn_item : Z -> option Story;
  tg_send : SendMessageRequest -> Posted SendMessageResponse;
  tg_edit : EditMessageTextRequest -> Posted SendMessageResponse;
  tg_delete : DeleteMessageRequest -> Posted DeleteMessageResponse
}.

(** ** The world *)

(** [sync.RWMutex]: any number of readers or one writer.  Nothing records
    who holds it: an acquisition that cannot be granted waits, also when
    the holder is the caller itself.  Every release in the code follows
    its acquisition, so the release of a mutex that is not held (a
    run-time error in Go) does not arise. *)
Record RWMutex := {
  readers : nat;
  writer : bool
}.

Definition unlocked : RWMutex := {| readers := 0; writer := false |}.

(** The file at [config.DataPath], seen through [os.Open] and the JSON
    decoder: missing, not openable, a document that decodes to a map, or
    a document the decoder rejects after leaving [m] in the target. *)
Inductive Snapshot :=
| Absent
| Unreadable
| Document (m : gmap Z Story)
| Malformed (m : gmap Z Story).

Record World := {
  stories : gmap Z Story;      (* b.storage.Stories *)
  mutex : RWMutex;             (* b.storage.mutex *)
  snapshot : Snapshot;         (* the file at config.DataPath *)
  createFails : bool;          (* whether os.Create on that path fails *)
  encodeFault : option Snapshot;
                               (* [Some f]: once the file is created, encoder.Encode
                                  fails and leaves the file as [f] *)
  clock : Z;                   (* what time.Now() returns *)
  outbox : list SinkCall;      (* requests posted to Telegram, oldest first *)
  logs : list LogLine          (* lines printed by log.Printf, oldest first *)
}.

Definition with_stories (m : gmap Z Story) (w : World) : World :=
  {| stories := m; mutex := mutex w; snapshot := snapshot w; createFails := createFails w;
     encodeFault := encodeFault w;
     clock := clock w; outbox := outbox w; logs := logs w |}.

Definition with_mutex (mu : RWMutex) (w : World) : World :=
  {| stories := stories w; mutex := mu; snapshot := snapshot w; createFails := createFails w;
     encodeFault := encodeFault w;
     clock := clock w; outbox := outbox w; logs := logs w |}.

Definition with_snapshot (f : Snapshot) (w : World) : World :=
  {| stories := stories w; mutex := mutex w; snapshot := f; createFails := createFails w;
     encodeFault := encodeFault w;
     clock := clock w; outbox := outbox w; logs := logs w |}.

Definition with_clock (t : Z) (w : World) : World :=
  {| stories := stories w; mutex := mutex w; snapshot := snapshot w; createFails := createFails w;
     encodeFault := encodeFault w;
     clock := t; outbox := outbox w; logs := logs w |}.

Definition with_outbox (o : list SinkCall) (w : World) : World :=
  {| stories := stories w; mutex := mutex w; snapshot := snapshot w; createFails := createFails w;
     encodeFault := encodeFault w;
     clock := clock w; outbox := o; logs := logs w |}.

Definition with_logs (l : list LogLine) (w : World) : World :=
  {| stories := stories w; mutex := mutex w; snapshot := snapshot w; createFails := createFails w;
     encodeFault := encodeFault w;
     clock := clock w; outbox := outbox w; logs := l |}.

(** ** Goroutines as world transformers that may wait forever *)

(** A call either returns a value in a new world, or its goroutine is
    parked on a mutex that no running goroutine will release; [Parked w]
    keeps the world as it stands at that moment. *)
Inductive Res (A : Type) :=
| Done (a : A) (w : World)
| Parked (w : World).
Arguments Done {A} a w.
Arguments Parked {A} w.

Definition final {A} (r : Res A) : World :=
  match r with
  | Done _ w => w
  | Parked w => w
  end.

Definition returns {A} (r : Res A) : bool :=
  match r with
  | Done _ _ => true
  | Parked _ => false
  end.

Definition Go (A : Type) : Type := World -> Res A.

Definition ret {A} (a : A) : Go A := fun w => Done a w.

Definition bind {A B} (m : Go A) (k : A -> Go B) : Go B :=
  fun w =>
    match m w with
    | Done a w' => k a w'
    | Parked w' => Parked w'
    end.

Declare Scope go_scope.
Delimit Scope go_scope with go.
Notation "x <- m ;; k" := (bind m (fun x => k))
  (at level 100, m at next level, right associativity) : go_scope.
Notation "m ;; k" := (bind m (fun _ => k))
  (at level 100, right associativity) : go_scope.
Local Open Scope go_scope.

Definition get : Go World := fun w => Done w w.
Definition modify (f : World -> World) : Go unit := fun w => Done tt (f w).

(** *** The mutex *)

Definition Lock : Go unit :=
  fun w =>
    if writer (mutex w) || negb (Nat.eqb (readers (mutex w)) 0)
    then Parked w
    else Done tt (with_mutex {| readers := 0; writer := true |} w).

Definition Unlock : Go unit :=
  modify (fun w => with_mutex {| readers := readers (mutex w); writer := false |} w).

Definition RLock : Go unit :=
  fun w =>
    if writer (mutex w)
    then Parked w
    else Done tt (with_mutex {| readers := S (readers (mutex w)); writer := false |} w).

Definition RUnlock : Go unit :=
  modify (fun w => with_mutex {| readers := Nat.pred (readers (mutex w)); writer := writer (mutex w) |} w).

(** *** Clock, log and the Telegram API *)

Definition time_Now : Go Z := fun w => Done (clock w) w.

Definition logPrintf (l : LogLine) : Go unit :=
  modify (fun w => with_logs (logs w ++ [l]) w).

Definition post (c : SinkCall) : Go unit :=
  modify (fun w => with_outbox (outbox w ++ [c]) w).

(** ** The bot ([main.go], lines 104-468) *)

Section Bot.

Variable E : Env.
Variable b : Config.

(** *** Storage *)

(** [StorageData.save]: the read lock is taken first, then the file is
    created, which empties it, and the whole map is encoded into it.
    The encoder can fail after the file was created: the file then holds
    what was written up to there.  A written snapshot is the document
    that decodes to the map.  The deferred [RUnlock] runs on every
    return. *)
Definition save : Go (option error) :=
  RLock ;;
  w <- get ;;
  if createFails w
  then (RUnlock ;; ret (Some ErrCreate))
  else
    match encodeFault w with
    | Some f =>
        modify (with_snapshot f) ;;
        RUnlock ;;
        ret (Some ErrEncode)
    | None =>
        modify (with_snapshot (Document (stories w))) ;;
        RUnlock ;;
        ret None
    end.

(** [StorageData.load]: the decoder fills the map it is given, so the
    entries it read are added to those already there. *)
Definition load : Go (option error) :=
  Lock ;;
  w <- get ;;
  match snapshot w with
  | Absent => Unlock ;; ret None
  | Unreadable => Unlock ;; ret (Some ErrOpen)
  | Document m => modify (with_stories (m ∪ stories w)) ;; Unlock ;; ret None
  | Malformed m => modify (with_stories (m ∪ stories w)) ;; Unlock ;; ret (Some ErrDecodeSnapshot)
  end.

(** [Bot.saveStory]: the write lock is held, by the deferred [Unlock],
    until [save] has returned. *)
Definition saveStory (story : Story) : Go (option error) :=
  Lock ;;
  now <- time_Now ;;
  let story := set_LastSave now story in
  modify (fun w => with_stories (<[ID story := story]> (stories w)) w) ;;
  err <- save ;;
  Unlock ;;
  ret err.

Definition getStoredStory (id : Z) : Go (option Story) :=
  RLock ;;
  w <- get ;;
  RUnlock ;;
  ret (stories w !! id).

(** *** Collaborators *)

Definition getTopStories : Go (option (list Z)) := ret (hn_topstories E).

Definition getStoryDetails (id : Z) : Go (option Story) := ret (hn_item E id).

(** *** Messages *)

Definition sendMessage (story : Story) : Go (option error) :=
  if shouldIgnore story then ret None
  else
    let req := Render.sendRequest b story in
    post (Send req) ;;
    match tg_send E req with
    | PostError => ret (Some ErrSendPost)
    | BadBody => ret (Some ErrSendDecode)
    | Body response =>
        if negb (send_OK response)
        then ret (Some (ErrSendTelegram (send_ErrorCode response) (send_Description response)))
        else saveStory (set_MessageID (send_Result_MessageID response) story)
    end.

(** [Bot.editMessage] closes the body of the answer without reading it. *)
Definition editMessage (story : Story) : Go (option error) :=
  if shouldIgnore story then ret None
  else
    let req := Render.editRequest b story in
    post (Edit req) ;;
    match tg_edit E req with
    | PostError => ret (Some ErrEditPost)
    | BadBody => saveStory story
    | Body _ => saveStory story
    end.

Definition shouldIgnoreDeleteError (resp : DeleteMessageResponse) : bool :=
  (del_ErrorCode resp =? 400)
  && (Strings.Contains (del_Description resp) "message to delete not found"
      || Strings.Contains (del_Description resp) "message can't be deleted").

Definition deleteMessage (story : Story) : Go (option error) :=
  let req := Render.deleteRequest b story in
  post (Delete req) ;;
  match tg_delete E req with
  | PostError => ret (Some ErrDeletePost)
  | BadBody => ret (Some ErrDeleteDecode)
  | Body response =>
      if negb (del_OK response) && negb (shouldIgnoreDeleteError response)
      then ret (Some (ErrDeleteTelegram (del_Description response)))
      else
        Lock ;;
        modify (fun w => with_stories (delete (ID story) (stories w)) w) ;;
        err <- save ;;
        Unlock ;;
        ret err
  end.

(** *** Fan-out *)

(** The goroutines of one cycle, run one after the other in the order of
    the list: one of the schedules the semaphore allows.  In the code up
    to [slots] of them run at once, and each posts its request before it
    asks for the write lock, so the order of the requests of different
    goroutines, and which of them gets the lock first, are not fixed.
    [slots] counts the places of the semaphore that no parked goroutine
    holds: a parked goroutine keeps its place, the goroutines after it
    still run while a place is left, and [wg.Wait] returns only when
    none is parked.  What is proved of whole cycles below does not
    depend on the order, except where the statement names it. *)
Fixpoint goEach {A} (f : A -> Go unit) (slots : nat) (l : list A) : Go unit :=
  fun w =>
    match l with
    | [] => Done tt w
    | x :: rest =>
        match slots with
        | O => Parked w
        | S k =>
            match f x w with
            | Done _ w' => goEach f slots rest w'
            | Parked w' => Parked (final (goEach f k rest w'))
            end
        end
    end.

(** *** One poll cycle *)

(** The body of the goroutine [poll] starts for one id.  The fixed delay
    after each message is not modelled. *)
Definition pollItem (id : Z) : Go unit :=
  stored <- getStoredStory id ;;
  match stored with
  | None =>
      fetched <- getStoryDetails id ;;
      match fetched with
      | None => logPrintf (LogDetailsError id)
      | Some story =>
          err <- sendMessage story ;;
          match err with
          | Some e => logPrintf (LogSendError id e)
          | None => logPrintf (LogSent (ID story) (Title story))
          end
      end
  | Some storedStory =>
      fetched <- getStoryDetails id ;;
      match fetched with
      | None => logPrintf (LogDetailsError id)
      | Some story =>
          let story := set_MessageID (MessageID storedStory) story in
          err <- editMessage story ;;
          match err with
          | Some e => logPrintf (LogEditError id e)
          | None => logPrintf (LogUpdated (ID story) (Title story))
          end
      end
  end.

Definition poll : Go (option error) :=
  topStories <- getTopStories ;;
  match topStories with
  | None => ret (Some ErrTopStories)
  | Some ids => goEach pollItem 3 ids ;; ret None
  end.

(** *** One cleanup cycle *)

Definition deleteItem (s : Story) : Go unit :=
  err <- deleteMessage s ;;
  match err with
  | Some e => logPrintf (LogDeleteError (ID s) e)
  | None => logPrintf (LogDeleted (ID s))
  end.

(** The stories saved before the cutoff.  Go ranges over a map in no
    fixed order; the order here is the one of [map_to_list]. *)
Definition oldStoriesOf (oneDayAgo : Z) (m : gmap Z Story) : list Story :=
  List.filter (fun s => LastSave s <? oneDayAgo) (map snd (map_to_list m)).

Definition cleanup : Go (option error) :=
  now <- time_Now ;;
  let oneDayAgo := now - CleanupInterval in
  RLock ;;
  w <- get ;;
  let oldStories := oldStoriesOf oneDayAgo (stories w) in
  RUnlock ;;
  goEach deleteItem 5 oldStories ;;
  ret None.

(** *** The scheduler *)

(** A tick of one of the two tickers, with the instant at which it is
    served. *)
Inductive Tick :=
| PollTick (t : Z)
| CleanupTick (t : Z).

Definition serveTick (t : Tick) : Go unit :=
  match t with
  | PollTick at_ =>
      modify (with_clock at_) ;;
      err <- poll ;;
      match err with
      | Some e => logPrintf (LogPollError e)
      | None => ret tt
      end
  | CleanupTick at_ =>
      modify (with_clock at_) ;;
      err <- cleanup ;;
      match err with
      | Some e => logPrintf (LogCleanupError e)
      | None => ret tt
      end
  end.

Fixpoint serve (ticks : list Tick) : Go unit :=
  match ticks with
  | [] => ret tt
  | t :: rest => serveTick t ;; serve rest
  end.

(** [Bot.run] up to the ticks given: the loop itself never ends. *)
Definition run (ticks : list Tick) : Go unit :=
  logPrintf LogBotStarted ;;
  err <- poll ;;
  match err with
  | Some e => logPrintf (LogInitialPollError e)
  | None => ret tt
  end ;;
  serve ticks.

Definition Close : Go (option error) := save.

End Bot.

(** *** Start-up ([main.go], lines 104-119 and 470-503) *)

(** [NewBot] makes a new storage with an empty map and a fresh mutex, and
    loads the snapshot into it. *)
Definition NewBot (config : Config) : Go (option Config * option error) :=
  modify (fun w => with_mutex unlocked (with_stories ∅ w)) ;;
  err <- load ;;
  match err with
  | Some e => logPrintf (WarnLoadFailed e)
  | None => ret tt
  end ;;
  ret (Some config, None).

(** The three variables [loadConfig] reads; an unset variable reads as
    the empty string. *)
Record Environ := {
  BOT_KEY : string;
  CHAT_ID : string;
  DATA_PATH : string
}.

(** [None] is the [log.Fatal] of a missing [BOT_KEY]. *)
Definition loadConfig (env : Environ) : option Config :=
  if String.eqb (BOT_KEY env) "" then None
  else
    Some {| BotKey := BOT_KEY env;
            ChatID := if String.eqb (CHAT_ID env) "" then "@@hacker_news_wooo" else CHAT_ID env;
            DataPath := if String.eqb (DATA_PATH env) "" then "stories.json" else DATA_PATH env |}.

(** [main] up to the call of [bot.run]: either the process has exited
    through [log.Fatal], or the bot is about to run. *)
Inductive Startup :=
| FatalExit
| Started (bot : Config) (w : World)
| Stuck (w : World).

Definition startup (env : Environ) (w : World) : Startup :=
  match loadConfig env with
  | None => FatalExit
  | Some config =>
      match NewBot config w with
      | Done (Some bot, None) w' => Started bot w'
      | Done _ _ => FatalExit
      | Parked w' => Stuck w'
      end
  end.

(** ** Auxiliary definitions and concrete worlds *)

Definition held : RWMutex := {| readers := 0; writer := true |}.

(** A [Lock] on the mutex has to wait: a writer or some reader holds it. *)
Definition contended (w : World) : bool :=
  writer (mutex w) || negb (Nat.eqb (readers (mutex w)) 0).

(** The world once [c] has been posted. *)
Definition posted (c : SinkCall) (w : World) : World :=
  with_outbox (outbox w ++ [c]) w.

Fixpoint chars (s : string) : list ascii :=
  match s with
  | EmptyString => []
  | String c rest => c :: chars rest
  end.

(** The characters that open or close a tag or an attribute value. *)
Definition markup (c : ascii) : bool :=
  Ascii.eqb c "<"%char || Ascii.eqb c ">"%char
  || Ascii.eqb c "034"%char || Ascii.eqb c "'"%char.

Definition boundary_story : Story :=
  {| ID := 1; URL := "http://x"; Title := "t"; Descendants := 5; Score := 50;
     Type_ := "story"; MessageID := 0; LastSave := 0 |}.

Definition story80 : Story :=
  {| ID := 1; URL := "http://x"; Title := "Show HN: <tg> & more"; Descendants := 10; Score := 80;
     Type_ := "story"; MessageID := 0; LastSave := 0 |}.

Definition idle_world : World :=
  {| stories := ∅; mutex := unlocked; snapshot := Absent; createFails := false;
     encodeFault := None; clock := 1000; outbox := []; logs := [] |}.

Definition channel : Config :=
  {| BotKey := "bot123:abc"; ChatID := "@hn"; DataPath := "stories.json" |}.

Definition accepted (handle : Z) : SendMessageResponse :=
  {| send_OK := true; send_Result_MessageID := handle; send_ErrorCode := 0;
     send_Description := "" |}.

Definition rejected (code : Z) (description : string) : SendMessageResponse :=
  {| send_OK := false; send_Result_MessageID := 0; send_ErrorCode := code;
     send_Description := description |}.

(** A source that lists [ids] and answers with [items]; a sink that
    accepts every request. *)
Definition friendly (ids : list Z) (items : Z -> option Story) : Env :=
  {| hn_topstories := Some ids;
     hn_item := items;
     tg_send := fun _ => Body (accepted 100);
     tg_edit := fun _ => Body (accepted 100);
     tg_delete := fun _ => Body {| del_OK := true; del_ErrorCode := 0; del_Description := "" |} |}.

Definition only (s : Story) (id : Z) : option Story :=
  if id =? ID s then Some s else None.

(** Item 1 as it was tracked: sent as message 100 at instant 0. *)
Definition tracked80 : Story := set_MessageID 100 story80.

Definition tracked_world : World :=
  {| stories := {[ 1 := tracked80 ]}; mutex := unlocked;
     snapshot := Document {[ 1 := tracked80 ]}; createFails := false;
     encodeFault := None; clock := 5 * Minute; outbox := []; logs := [] |}.

(** Item 1 fetched again with a score that is now below the threshold. *)
Definition fresh_low : Story :=
  {| ID := 1; URL := "http://x"; Title := "Show HN: <tg> & more"; Descendants := 10; Score := 10;
     Type_ := "story"; MessageID := 0; LastSave := 0 |}.

(** Item 1 fetched again with more points and more comments. *)
Definition fresh_hot : Story :=
  {| ID := 1; URL := "http://x"; Title := "Show HN: <tg> & more"; Descendants := 120; Score := 150;
     Type_ := "story"; MessageID := 0; LastSave := 0 |}.

Definition story81 : Story :=
  {| ID := 2; URL := "http://y"; Title := "Second"; Descendants := 7; Score := 60;
     Type_ := "story"; MessageID := 0; LastSave := 0 |}.

Definition both (id : Z) : option Story :=
  if id =? 1 then Some story80 else if id =? 2 then Some story81 else None.

(** A sink that answers every edit with the rejection Telegram gives to
    an edit that changes nothing. *)
Definition unmoved (ids : list Z) (items : Z -> option Story) : Env :=
  {| hn_topstories := Some ids;
     hn_item := items;
     tg_send := fun _ => Body (accepted 100);
     tg_edit := fun _ => Body (rejected 400 "Bad Request: message is not modified");
     tg_delete := fun _ =>
       Body {| del_OK := false; del_ErrorCode := 400;
               del_Description := "Bad Request: message to delete not found" |} |}.

Definition environ : Environ :=
  {| BOT_KEY := "bot123:abc"; CHAT_ID := "@hn"; DATA_PATH := "" |}.

(** The tracked item a day and an hour later. *)
Definition stale_world : World := with_clock (25 * Hour) tracked_world.

Definition empty_url : Story :=
  {| ID := 3; URL := ""; Title := "Ask HN"; Descendants := 40; Score := 90;
     Type_ := "story"; MessageID := 0; LastSave := 0 |}.

(** ** What a goroutine can do to the store *)

(** [w'] has the store, the mutex and the snapshot of [w]. *)
Definition quiet (w w' : World) : Prop :=
  stories w' = stories w /\ mutex w' = mutex w /\ snapshot w' = snapshot w.

(** Between [w] and [w'] the write lock was granted once and is still
    held, and under it one record was put in the map or one key was
    deleted from it; the snapshot is the same. *)
Definition seized (w w' : World) : Prop :=
  contended w = false /\ mutex w' = held /\ snapshot w' = snapshot w
  /\ ((exists s, stories w' = <[ID s := s]> (stories w))
      \/ (exists k, stories w' = delete k (stories w))).

Definition effect (w w' : World) : Prop := quiet w w' \/ seized w w'.

(** A call settles when it has either returned with the store, the mutex
    and the snapshot as they were, or is parked after one of the two
    effects. *)
Definition settles {A} (w : World) (r : Res A) : Prop :=
  effect w (final r) /\ (returns r = true -> quiet w (final r)).

(** Every record is stored under its own id. *)
Definition keyed (m : gmap Z Story) : Prop :=
  forall k s, m !! k = Some s -> ID s = k.

(** The calls posted between [w] and [w']: at most [n], all satisfying [P]. *)
Definition grows (P : SinkCall -> Prop) (n : nat) (w w' : World) : Prop :=
  exists new, outbox w' = outbox w ++ new /\ Forall P new /\ (length new <= n)%nat.

Definition isPollTick (t : Tick) : bool :=
  match t with
  | PollTick _ => true
  | CleanupTick _ => false
  end.

(** ** The other URLs ([main.go], lines 160-162) *)

Definition HackerNewsAPIBase : string := "https://hacker-news.firebaseio.com/v0".

Definition itemURL (id : Z) : string :=
  (HackerNewsAPIBase ++ "/item/" ++ Strings.FormatInt id ++ ".json")%string.

(** The ids a poll cycle works on. *)
Definition candidates (E : Env) : list Z :=
  match hn_topstories E with
  | Some ids => ids
  | None => []
  end.

(** The records a cleanup cycle started in [w] selects. *)
Definition staleAt (w : World) : list Story :=
  oldStoriesOf (clock w - CleanupInterval) (stories w).

(** A message about [s] that a poll cycle may post. *)
Definition announces (b : Config) (s : Story) (c : SinkCall) : Prop :=
  c = Send (Render.sendRequest b s)
  \/ exists handle, c = Edit (Render.editRequest b (set_MessageID handle s)).


(** A world whose data path cannot be written. *)
Definition readonly_world : World :=
  {| stories := {[ 1 := tracked80 ]}; mutex := unlocked; snapshot := Absent;
     createFails := true; encodeFault := None; clock := 5 * Minute; outbox := []; logs := [] |}.




(** The edit requests among the calls posted. *)
Definition edits (l : list SinkCall) : list EditMessageTextRequest :=
  flat_map (fun c => match c with Edit r => [r] | _ => [] end) l.

(** The send requests among the calls posted. *)
Definition sends (l : list SinkCall) : list SendMessageRequest :=
  flat_map (fun c => match c with Send r => [r] | _ => [] end) l.

(** * Properties *)

(** ** The filter *)

Lemma shouldIgnore_set_MessageID (m : Z) (s : Story) :
  shouldIgnore (set_MessageID m s) = shouldIgnore s.
Proof. reflexivity. Qed.

Lemma shouldIgnore_false (s : Story) :
  shouldIgnore s = false <->
  Type_ s = "story"%string /\ ScoreThreshold <= Score s
  /\ NumCommentsThreshold <= Descendants s /\ URL s <> ""%string.
Proof.
  unfold shouldIgnore.
  rewrite !orb_false_iff, negb_false_iff, String.eqb_eq, String.eqb_neq, !Z.ltb_ge.
  tauto.
Qed.

(** C3.  The filter excludes an item exactly when its type tag is not
    "story", or its score is below 50, or its descendant count is below 5,
    or its URL is empty; an item of type "story" with a non-empty URL, a
    score of exactly 50 and exactly 5 descendants is included. *)
Theorem shouldIgnore_iff (s : Story) :
  (shouldIgnore s = true <->
     Type_ s <> "story"%string \/ Score s < 50 \/ Descendants s < 5 \/ URL s = ""%string)
  /\ (Type_ s = "story"%string -> URL s <> ""%string ->
      Score s = 50 -> Descendants s = 5 -> shouldIgnore s = false).
Proof.
  split.
  - unfold shouldIgnore, ScoreThreshold, NumCommentsThreshold.
    rewrite !orb_true_iff, negb_true_iff, String.eqb_neq, String.eqb_eq, !Z.ltb_lt.
    tauto.
  - intros Hty Hurl Hscore Hdesc.
    apply shouldIgnore_false.
    unfold ScoreThreshold, NumCommentsThreshold. repeat split; auto; lia.
Qed.

Lemma shouldIgnore_iff_witness : shouldIgnore boundary_story = false.
Proof.
  apply (proj2 (shouldIgnore_iff boundary_story)); simpl; try reflexivity.
  intros H; discriminate H.
Defined.

(** ** The mutex and the storage *)

Lemma with_mutex_id (w : World) : with_mutex (mutex w) w = w.
Proof. destruct w; reflexivity. Qed.

Lemma unlocked_not_contended (w : World) : mutex w = unlocked -> contended w = false.
Proof. unfold contended. intros ->. reflexivity. Qed.

Lemma getStoredStory_granted (id : Z) (w : World) :
  writer (mutex w) = false -> getStoredStory id w = Done (stories w !! id) w.
Proof.
  intros Hw. unfold getStoredStory, bind, RLock, RUnlock, modify, get, ret.
  rewrite Hw. cbn.
  destruct w as [st [rd wr] sn cf ef ck ob lg]; cbn in *. subst wr. reflexivity.
Qed.

Lemma getStoredStory_waits (id : Z) (w : World) :
  writer (mutex w) = true -> getStoredStory id w = Parked w.
Proof.
  intros Hw. unfold getStoredStory, bind, RLock. rewrite Hw. reflexivity.
Qed.

(** [saveStory] in full: when the write lock is granted the record is
    put in the map, and the goroutine then waits in [save] for a read
    lock on the mutex it holds itself. *)
Lemma saveStory_spec (story : Story) (w : World) :
  saveStory story w =
  if contended w then Parked w
  else Parked (with_stories (<[ID story := set_LastSave (clock w) story]> (stories w))
                 (with_mutex held w)).
Proof.
  unfold saveStory, bind, Lock, contended.
  destruct (writer (mutex w) || negb (Nat.eqb (readers (mutex w)) 0)); reflexivity.
Qed.

Lemma save_granted (w : World) :
  mutex w = unlocked -> createFails w = false -> encodeFault w = None ->
  save w = Done None (with_snapshot (Document (stories w)) w).
Proof.
  intros Hm Hc He. unfold save, bind, RLock, RUnlock, modify, get, ret.
  rewrite Hm. cbn. rewrite Hc, He. cbn.
  destruct w as [st mu sn cf ef ck ob lg]; cbn in *. subst mu. reflexivity.
Qed.

(** ** The three messages *)

Section Messages.

Variable E : Env.
Variable b : Config.

Lemma sendMessage_spec (story : Story) (w : World) :
  sendMessage E b story w =
  if shouldIgnore story then Done None w
  else
    let w1 := posted (Send (Render.sendRequest b story)) w in
    match tg_send E (Render.sendRequest b story) with
    | PostError => Done (Some ErrSendPost) w1
    | BadBody => Done (Some ErrSendDecode) w1
    | Body r =>
        if send_OK r
        then saveStory (set_MessageID (send_Result_MessageID r) story) w1
        else Done (Some (ErrSendTelegram (send_ErrorCode r) (send_Description r))) w1
    end.
Proof.
  unfold sendMessage. destruct (shouldIgnore story); [reflexivity|].
  unfold bind, post, modify, posted. cbn.
  destruct (tg_send E _) as [| |r]; try reflexivity.
  destruct (send_OK r); reflexivity.
Qed.

Lemma editMessage_spec (story : Story) (w : World) :
  editMessage E b story w =
  if shouldIgnore story then Done None w
  else
    let w1 := posted (Edit (Render.editRequest b story)) w in
    match tg_edit E (Render.editRequest b story) with
    | PostError => Done (Some ErrEditPost) w1
    | _ => saveStory story w1
    end.
Proof.
  unfold editMessage. destruct (shouldIgnore story); [reflexivity|].
  unfold bind, post, modify, posted. cbn.
  destruct (tg_edit E _); reflexivity.
Qed.

Lemma deleteMessage_spec (story : Story) (w : World) :
  deleteMessage E b story w =
  let w1 := posted (Delete (Render.deleteRequest b story)) w in
  match tg_delete E (Render.deleteRequest b story) with
  | PostError => Done (Some ErrDeletePost) w1
  | BadBody => Done (Some ErrDeleteDecode) w1
  | Body r =>
      if negb (del_OK r) && negb (shouldIgnoreDeleteError r)
      then Done (Some (ErrDeleteTelegram (del_Description r))) w1
      else if contended w then Parked w1
      else Parked (with_stories (delete (ID story) (stories w)) (with_mutex held w1))
  end.
Proof.
  unfold deleteMessage, bind, post, modify, posted. cbn.
  destruct (tg_delete E _) as [| |r]; try reflexivity.
  destruct (negb (del_OK r) && negb (shouldIgnoreDeleteError r)); [reflexivity|].
  unfold Lock, contended. cbn.
  destruct (writer (mutex w) || negb (Nat.eqb (readers (mutex w)) 0)); reflexivity.
Qed.

End Messages.

(** ** Rendering *)

Lemma chars_append (s t : string) : chars (s ++ t)%string = chars s ++ chars t.
Proof. induction s as [|c s IH]; simpl; [reflexivity | now rewrite IH]. Qed.

Lemma escapeChar_clean (c : ascii) : forallb (fun d => negb (markup d)) (chars (Strings.escapeChar c)) = true.
Proof.
  unfold Strings.escapeChar.
  destruct (Ascii.eqb c "&"%char); [reflexivity|].
  destruct (Ascii.eqb c "'"%char) eqn:Hq; [reflexivity|].
  destruct (Ascii.eqb c "<"%char) eqn:Hl; [reflexivity|].
  destruct (Ascii.eqb c ">"%char) eqn:Hg; [reflexivity|].
  destruct (Ascii.eqb c "034"%char) eqn:Hd; [reflexivity|].
  cbn. unfold markup. rewrite Hq, Hl, Hg, Hd. reflexivity.
Qed.

Lemma EscapeString_clean (s : string) :
  forallb (fun d => negb (markup d)) (chars (Strings.EscapeString s)) = true.
Proof.
  induction s as [|c s IH]; [reflexivity|].
  cbn [Strings.EscapeString].
  rewrite chars_append, forallb_app, escapeChar_clean, IH. reflexivity.
Qed.

Lemma outbox_saveStory (story : Story) (w : World) :
  outbox (final (saveStory story w)) = outbox w.
Proof. rewrite saveStory_spec. destruct (contended w); reflexivity. Qed.

(** C9 (as amended).  For every included item the message posted on
    create and the one posted on update carry the same text, parse mode
    and buttons, in [main.go] and in the sqlite variant alike: the text
    is the title in bold followed by the URL, and the keyboard is one
    row of two buttons, "Score: N+" linking to the item's URL and
    "Comments: N+" linking to the discussion page, each followed by the
    hot marker exactly when the number is above 100.  In [main.go] the
    title is escaped, so that it holds no markup character; the sqlite
    variant puts the title in the text as it was fetched. *)
Theorem rendered_message (E : Env) (b : Config) (s : Story) (w : World) :
  shouldIgnore s = false ->
  (outbox (final (sendMessage E b s w)) = outbox w ++ [Send (Render.sendRequest b s)]
   /\ outbox (final (editMessage E b s w)) = outbox w ++ [Edit (Render.editRequest b s)]
   /\ send_Text (Render.sendRequest b s) = edit_Text (Render.editRequest b s)
   /\ send_ParseMode (Render.sendRequest b s) = edit_ParseMode (Render.editRequest b s)
   /\ send_ReplyMarkup (Render.sendRequest b s) = edit_ReplyMarkup (Render.editRequest b s)
   /\ edit_Text (Render.editRequest b s)
      = ("<b>" ++ Strings.EscapeString (Title s) ++ "</b>  " ++ URL s)%string
   /\ (forall c, In c (chars (Strings.EscapeString (Title s))) -> markup c = false))
  /\ (send_Text (Sqlite.sendRequest b s) = edit_Text (Sqlite.editRequest b s)
      /\ send_ParseMode (Sqlite.sendRequest b s) = edit_ParseMode (Sqlite.editRequest b s)
      /\ send_ReplyMarkup (Sqlite.sendRequest b s) = edit_ReplyMarkup (Sqlite.editRequest b s)
      /\ edit_Text (Sqlite.editRequest b s) = ("<b>" ++ Title s ++ "</b>  " ++ URL s)%string
      /\ edit_ReplyMarkup (Sqlite.editRequest b s) = edit_ReplyMarkup (Render.editRequest b s))
  /\ exists score comments,
       InlineKeyboard (edit_ReplyMarkup (Render.editRequest b s)) = [[score; comments]]
       /\ btn_URL score = URL s
       /\ btn_URL comments
          = ("https://news.ycombinator.com/item?id=" ++ Strings.FormatInt (ID s))%string
       /\ (Score s <= 100 ->
           btn_Text score = ("Score: " ++ Strings.FormatInt (Score s) ++ "+")%string)
       /\ (100 < Score s ->
           btn_Text score = ("Score: " ++ Strings.FormatInt (Score s) ++ "+ " ++ Hot)%string)
       /\ (Descendants s <= 100 ->
           btn_Text comments
           = ("Comments: " ++ Strings.FormatInt (Descendants s) ++ "+")%string)
       /\ (100 < Descendants s ->
           btn_Text comments
           = ("Comments: " ++ Strings.FormatInt (Descendants s) ++ "+ " ++ Hot)%string).
Proof.
  intros Hin. split; [|split].
  - split; [|split; [|repeat split]].
    + rewrite sendMessage_spec, Hin. cbn zeta.
      destruct (tg_send E _) as [| |r]; try reflexivity.
      destruct (send_OK r); [|reflexivity].
      now rewrite outbox_saveStory.
    + rewrite editMessage_spec, Hin. cbn zeta.
      destruct (tg_edit E _); try reflexivity; now rewrite outbox_saveStory.
    + intros c Hc.
      pose proof (EscapeString_clean (Title s)) as Hall.
      rewrite forallb_forall in Hall. specialize (Hall c Hc).
      now apply negb_true_iff in Hall.
  - repeat split.
  - eexists _, _. cbn. split; [reflexivity|].
    split; [reflexivity|]. split; [reflexivity|].
    unfold Render.scoreSuffix, Render.commentSuffix.
    repeat split; intros H.
    + apply Z.ltb_ge in H. rewrite H. reflexivity.
    + apply Z.ltb_lt in H. rewrite H. reflexivity.
    + apply Z.ltb_ge in H. rewrite H. reflexivity.
    + apply Z.ltb_lt in H. rewrite H. reflexivity.
Qed.

Lemma rendered_message_witness :
  outbox (final (sendMessage (friendly [1] (only story80)) channel story80 idle_world))
  = [Send (Render.sendRequest channel story80)]
  /\ edit_Text (Sqlite.editRequest channel story80)
     = "<b>Show HN: <tg> & more</b>  http://x"%string
  /\ btn_Text (hd {| btn_Text := ""; btn_URL := "" |}
                 (concat (InlineKeyboard (Render.getReplyMarkup story80))))
     = "Score: 80+"%string.
Proof.
  pose proof (rendered_message (friendly [1] (only story80)) channel story80 idle_world
                eq_refl) as ((Hsend & _) & (_ & _ & _ & Htext & _) & _).
  split; [exact Hsend | split; [exact Htext | reflexivity]].
Defined.

(** C9, the claim as stated, at an item with score 80, 10 comments and
    a title with markup in it: the two buttons do not read "Score: 80"
    and "Comments: 10", and the text of the sqlite variant holds the
    title with its markup, unescaped. *)
Lemma button_text_counterexample :
  shouldIgnore story80 = false
  /\ (exists score comments,
        InlineKeyboard (Render.getReplyMarkup story80) = [[score; comments]]
        /\ btn_Text score = "Score: 80+"%string
        /\ btn_Text score <> "Score: 80"%string
        /\ btn_Text comments = "Comments: 10+"%string
        /\ btn_Text comments <> "Comments: 10"%string)
  /\ send_Text (Sqlite.sendRequest channel story80)
     = "<b>Show HN: <tg> & more</b>  http://x"%string
  /\ send_Text (Sqlite.sendRequest channel story80)
     <> ("<b>" ++ Strings.EscapeString (Title story80) ++ "</b>  " ++ URL story80)%string
  /\ existsb markup (chars (Title story80)) = true.
Proof.
  split; [reflexivity|]. split.
  - eexists _, _. split; [reflexivity|].
    cbn. repeat split; try reflexivity; intros H; discriminate H.
  - split; [reflexivity|]. split; [|reflexivity].
    intros H. vm_compute in H. discriminate H.
Qed.

(** ** One candidate of a poll cycle *)

Section Candidate.

Variable E : Env.
Variable b : Config.

Lemma pollItem_waits (id : Z) (w : World) :
  writer (mutex w) = true -> pollItem E b id w = Parked w.
Proof.
  intros Hw. unfold pollItem, bind at 1. now rewrite getStoredStory_waits.
Qed.

Lemma pollItem_tracked (id : Z) (stored fresh : Story) (w : World) :
  writer (mutex w) = false ->
  stories w !! id = Some stored ->
  hn_item E id = Some fresh ->
  pollItem E b id w =
  match editMessage E b (set_MessageID (MessageID stored) fresh) w with
  | Done (Some e) w' => Done tt (with_logs (logs w' ++ [LogEditError id e]) w')
  | Done None w' => Done tt (with_logs (logs w' ++ [LogUpdated (ID fresh) (Title fresh)]) w')
  | Parked w' => Parked w'
  end.
Proof.
  intros Hw Hst Hit. unfold pollItem, bind at 1.
  rewrite getStoredStory_granted, Hst by assumption.
  unfold getStoryDetails, bind, ret. rewrite Hit.
  destruct (editMessage E b _ w) as [[e|] w'|w']; reflexivity.
Qed.

Lemma pollItem_untracked (id : Z) (story : Story) (w : World) :
  writer (mutex w) = false ->
  stories w !! id = None ->
  hn_item E id = Some story ->
  pollItem E b id w =
  match sendMessage E b story w with
  | Done (Some e) w' => Done tt (with_logs (logs w' ++ [LogSendError id e]) w')
  | Done None w' => Done tt (with_logs (logs w' ++ [LogSent (ID story) (Title story)]) w')
  | Parked w' => Parked w'
  end.
Proof.
  intros Hw Hst Hit. unfold pollItem, bind at 1.
  rewrite getStoredStory_granted, Hst by assumption.
  unfold getStoryDetails, bind, ret. rewrite Hit.
  destruct (sendMessage E b _ w) as [[e|] w'|w']; reflexivity.
Qed.

Lemma oldStoriesOf_In (cutoff id : Z) (s : Story) (m : gmap Z Story) :
  m !! id = Some s -> LastSave s < cutoff -> In s (oldStoriesOf cutoff m).
Proof.
  intros Hm Hold. unfold oldStoriesOf.
  apply filter_In. split.
  - apply in_map_iff. exists (id, s). split; [reflexivity|].
    apply list_elem_of_In, elem_of_map_to_list. exact Hm.
  - now apply Z.ltb_lt.
Qed.

Lemma pollItem_tracked_excluded (id : Z) (stored fresh : Story) (w : World) :
  stories w !! id = Some stored ->
  hn_item E id = Some fresh ->
  shouldIgnore fresh = true ->
  outbox (final (pollItem E b id w)) = outbox w
  /\ stories (final (pollItem E b id w)) = stories w
  /\ snapshot (final (pollItem E b id w)) = snapshot w.
Proof.
  intros Hst Hit Hex. destruct (writer (mutex w)) eqn:Hw.
  - rewrite pollItem_waits by assumption. auto.
  - rewrite (pollItem_tracked id stored fresh) by assumption.
    rewrite editMessage_spec, shouldIgnore_set_MessageID, Hex. auto.
Qed.

(** C10.  When [id] is tracked and its freshly fetched details are
    excluded by the filter, the goroutine the poll cycle runs for [id]
    posts nothing to the sink and leaves the store and the snapshot as
    they were: the record keeps its [LastSave], so a cleanup cycle run
    once that instant is more than 24 hours old selects it. *)
Theorem excluded_tracked_item_untouched (id : Z) (stored fresh : Story) (w : World) :
  stories w !! id = Some stored ->
  hn_item E id = Some fresh ->
  shouldIgnore fresh = true ->
  outbox (final (pollItem E b id w)) = outbox w
  /\ stories (final (pollItem E b id w)) = stories w
  /\ snapshot (final (pollItem E b id w)) = snapshot w
  /\ stories (final (pollItem E b id w)) !! id = Some stored
  /\ forall now, LastSave stored < now - CleanupInterval ->
       In stored (oldStoriesOf (now - CleanupInterval) (stories (final (pollItem E b id w)))).
Proof.
  intros Hst Hit Hex.
  destruct (pollItem_tracked_excluded id stored fresh w Hst Hit Hex) as (Hob & Hs & Hsn).
  rewrite Hs. repeat split; try assumption.
  intros now Hold. now apply (oldStoriesOf_In _ id).
Qed.

(** [saveStory] posts nothing and drops no record. *)
Lemma saveStory_keeps (story : Story) (id : Z) (w : World) :
  outbox (final (saveStory story w)) = outbox w
  /\ (is_Some (stories w !! id) -> is_Some (stories (final (saveStory story w)) !! id)).
Proof.
  rewrite saveStory_spec. destruct (contended w); cbn; split; auto.
  intros Hsome. rewrite lookup_insert. now case_decide.
Qed.

(** C1 (as amended).  When [id] is found in the store and its fresh
    details are fetched, the goroutine posts an edit, under the tracked
    message id and with the refreshed content, exactly when the filter
    includes the item; when the filter excludes it nothing is posted.
    In both cases [id] stays tracked. *)
Theorem tracked_item_edit_iff_included (id : Z) (stored fresh : Story) (w : World) :
  writer (mutex w) = false ->
  stories w !! id = Some stored ->
  hn_item E id = Some fresh ->
  outbox (final (pollItem E b id w))
  = outbox w ++
    (if shouldIgnore fresh then []
     else [Edit (Render.editRequest b (set_MessageID (MessageID stored) fresh))])
  /\ is_Some (stories (final (pollItem E b id w)) !! id).
Proof.
  intros Hw Hst Hit.
  rewrite (pollItem_tracked id stored fresh) by assumption.
  rewrite editMessage_spec, shouldIgnore_set_MessageID.
  destruct (shouldIgnore fresh).
  - cbn. rewrite app_nil_r, Hst. eauto.
  - cbn zeta.
    set (story := set_MessageID (MessageID stored) fresh).
    set (w1 := posted (Edit (Render.editRequest b story)) w).
    destruct (saveStory_keeps story id w1) as (Hout & Hkeep).
    assert (Hsome : is_Some (stories w1 !! id)) by (cbn; rewrite Hst; eauto).
    specialize (Hkeep Hsome).
    destruct (tg_edit E _) as [| |r]; cbn.
    + rewrite Hst. eauto.
    + destruct (saveStory story w1) as [[e|] w'|w']; cbn in *; rewrite Hout; auto.
    + destruct (saveStory story w1) as [[e|] w'|w']; cbn in *; rewrite Hout; auto.
Qed.

End Candidate.

Section Outcomes.

Variable E : Env.
Variable b : Config.



(** C6.  For a candidate that is not tracked and passes the filter, one
    send is posted.  When the sink accepts it the record is put in the
    map with the message id of the answer, but the goroutine then waits
    forever for the read lock of [save]: it never returns and the
    snapshot is not written.  When the send fails no record is made. *)
Theorem untracked_candidate_send (id : Z) (story : Story) (w : World) :
  mutex w = unlocked ->
  stories w !! id = None ->
  hn_item E id = Some story ->
  shouldIgnore story = false ->
  outbox (final (pollItem E b id w)) = outbox w ++ [Send (Render.sendRequest b story)]
  /\ (forall r, tg_send E (Render.sendRequest b story) = Body r -> send_OK r = true ->
        returns (pollItem E b id w) = false
        /\ stories (final (pollItem E b id w))
           = <[ID story := set_LastSave (clock w) (set_MessageID (send_Result_MessageID r) story)]>
               (stories w)
        /\ mutex (final (pollItem E b id w)) = held
        /\ snapshot (final (pollItem E b id w)) = snapshot w)
  /\ ((forall r, tg_send E (Render.sendRequest b story) = Body r -> send_OK r = false) ->
        returns (pollItem E b id w) = true
        /\ stories (final (pollItem E b id w)) = stories w
        /\ snapshot (final (pollItem E b id w)) = snapshot w).
Proof.
  intros Hm Hst Hit Hin.
  assert (Hw : writer (mutex w) = false) by now rewrite Hm.
  rewrite (pollItem_untracked E b id story) by assumption.
  rewrite sendMessage_spec, Hin. cbn zeta.
  assert (Hsave : forall s,
            saveStory s (posted (Send (Render.sendRequest b story)) w)
            = Parked (with_stories (<[ID s := set_LastSave (clock w) s]> (stories w))
                        (with_mutex held (posted (Send (Render.sendRequest b story)) w)))).
  { intros s. rewrite saveStory_spec. unfold contended. cbn. rewrite Hm. reflexivity. }
  destruct (tg_send E _) as [| |r] eqn:Hans.
  - cbn. split; [reflexivity|]. split; [intros r' Hr; discriminate Hr | auto].
  - cbn. split; [reflexivity|]. split; [intros r' Hr; discriminate Hr | auto].
  - destruct (send_OK r) eqn:Hok.
    + rewrite Hsave. cbn. split; [reflexivity|]. split.
      * intros r' Hr' _. injection Hr' as <-. auto.
      * intros Hrej. specialize (Hrej r eq_refl). congruence.
    + cbn. split; [reflexivity|]. split.
      * intros r' Hr' Hok'. injection Hr' as <-. congruence.
      * auto.
Qed.

(** C5.  An edit whose request cannot be posted leaves the store and
    the snapshot unchanged.  An edit whose request was posted is taken as
    a success whatever the sink answered, also when it rejected the
    edit: the record is overwritten with a new [LastSave], and the
    goroutine then waits forever in [save], so the snapshot is never
    written. *)
Theorem edit_outcomes (story : Story) (w : World) :
  mutex w = unlocked ->
  shouldIgnore story = false ->
  (tg_edit E (Render.editRequest b story) = PostError ->
     exists w', editMessage E b story w = Done (Some ErrEditPost) w'
                /\ stories w' = stories w /\ snapshot w' = snapshot w)
  /\ (forall r, tg_edit E (Render.editRequest b story) = Body r ->
        returns (editMessage E b story w) = false
        /\ stories (final (editMessage E b story w))
           = <[ID story := set_LastSave (clock w) story]> (stories w)
        /\ snapshot (final (editMessage E b story w)) = snapshot w).
Proof.
  intros Hm Hin. rewrite editMessage_spec, Hin. cbn zeta. split.
  - intros ->. eexists. repeat split.
  - intros r ->. rewrite saveStory_spec. unfold contended. cbn. rewrite Hm. cbn. auto.
Qed.

(** C4.  When the sink accepts the deletion, or rejects it with code
    400 and one of the two descriptions that are ignored, the record is
    removed from the map, but the goroutine then waits forever for the
    read lock of [save]: it never returns and the snapshot still holds
    the record.  On any other failure the call returns an error and the
    store and the snapshot are unchanged. *)
Theorem delete_outcomes (story : Story) (w : World) :
  mutex w = unlocked ->
  (forall r, tg_delete E (Render.deleteRequest b story) = Body r ->
     del_OK r = true \/ shouldIgnoreDeleteError r = true ->
     returns (deleteMessage E b story w) = false
     /\ stories (final (deleteMessage E b story w)) = delete (ID story) (stories w)
     /\ mutex (final (deleteMessage E b story w)) = held
     /\ snapshot (final (deleteMessage E b story w)) = snapshot w)
  /\ ((forall r, tg_delete E (Render.deleteRequest b story) = Body r ->
         del_OK r = false /\ shouldIgnoreDeleteError r = false) ->
      exists e w', deleteMessage E b story w = Done (Some e) w'
                   /\ stories w' = stories w /\ snapshot w' = snapshot w).
Proof.
  intros Hm. rewrite deleteMessage_spec. cbn zeta.
  rewrite (unlocked_not_contended w Hm). split.
  - intros r -> Hacc.
    assert (negb (del_OK r) && negb (shouldIgnoreDeleteError r) = false) as ->.
    { destruct Hacc as [-> | ->]; [reflexivity | apply andb_false_r]. }
    cbn. auto.
  - intros Hrej. destruct (tg_delete E _) as [| |r].
    + eexists _, _. repeat split.
    + eexists _, _. repeat split.
    + destruct (Hrej r eq_refl) as [-> ->]. cbn. eexists _, _. repeat split.
Qed.

End Outcomes.

(** ** Cycles *)

Section Cycles.

Variable E : Env.
Variable b : Config.

(** Once a goroutine holds the write lock for good, the goroutines of
    the cycle that start after it change nothing. *)
Lemma goEach_pollItem_waits (slots : nat) (ids : list Z) (w : World) :
  writer (mutex w) = true ->
  final (goEach (pollItem E b) slots ids w) = w.
Proof.
  intros Hw. revert slots. induction ids as [|id ids IH]; intros slots; [reflexivity|].
  cbn. destruct slots as [|k]; [reflexivity|].
  rewrite pollItem_waits by assumption. cbn. apply IH.
Qed.

Lemma poll_first_parks (id : Z) (rest : list Z) (w w' : World) :
  hn_topstories E = Some (id :: rest) ->
  pollItem E b id w = Parked w' ->
  writer (mutex w') = true ->
  poll E b w = Parked w'.
Proof.
  intros Htop Hpark Hw'. unfold poll, getTopStories, bind, ret. rewrite Htop.
  cbn. rewrite Hpark. now rewrite goEach_pollItem_waits.
Qed.

End Cycles.

(** ** Start-up *)

(** C2 (as amended).  With the credential set, start-up reaches
    [bot.run] whatever the snapshot is: when the file is absent the map
    is empty and nothing is logged; when the file is there but the
    decoder rejects it, a warning is logged and the bot starts with the
    entries the decoder had read. *)
Theorem startup_with_snapshot (env : Environ) (w : World) :
  BOT_KEY env <> ""%string ->
  exists bot w',
    startup env w = Started bot w'
    /\ mutex w' = unlocked
    /\ (snapshot w = Absent -> stories w' = ∅ /\ logs w' = logs w)
    /\ (forall m, snapshot w = Malformed m ->
          stories w' = m /\ logs w' = logs w ++ [WarnLoadFailed ErrDecodeSnapshot]).
Proof.
  intros Hkey. unfold startup, loadConfig.
  apply String.eqb_neq in Hkey. rewrite Hkey.
  unfold NewBot, load, bind, modify, get, ret, Lock, Unlock, logPrintf. cbn.
  destruct (snapshot w) as [| |m|m]; cbn; eexists _, _;
    (split; [reflexivity|]); (split; [reflexivity|]); split.
  - intros _. split; reflexivity.
  - intros m' Hm'. discriminate Hm'.
  - intros Habs. discriminate Habs.
  - intros m' Hm'. discriminate Hm'.
  - intros Habs. discriminate Habs.
  - intros m' Hm'. discriminate Hm'.
  - intros Habs. discriminate Habs.
  - intros m' Hm'. injection Hm' as <-. split; [apply (right_id_L ∅ (∪))|reflexivity].
Qed.

(** ** Concrete runs *)

Lemma excluded_tracked_item_untouched_witness :
  outbox (final (pollItem (friendly [1] (only fresh_low)) channel 1 tracked_world)) = []
  /\ stories (final (pollItem (friendly [1] (only fresh_low)) channel 1 tracked_world))
     = {[ 1 := tracked80 ]}.
Proof.
  pose proof (excluded_tracked_item_untouched (friendly [1] (only fresh_low)) channel
                1 tracked80 fresh_low tracked_world eq_refl eq_refl eq_refl)
    as (Hout & Hst & _).
  split; [exact Hout | exact Hst].
Defined.

(** C1, the claim as stated, at a tracked item whose score fell to 10:
    the goroutine returns without any edit in the outbox. *)
Lemma excluded_tracked_item_counterexample :
  stories tracked_world !! 1 = Some tracked80
  /\ hn_item (friendly [1] (only fresh_low)) 1 = Some fresh_low
  /\ shouldIgnore fresh_low = true
  /\ returns (pollItem (friendly [1] (only fresh_low)) channel 1 tracked_world) = true
  /\ forall r,
       ~ In (Edit r)
           (outbox (final (pollItem (friendly [1] (only fresh_low)) channel 1 tracked_world))).
Proof.
  repeat split; try reflexivity.
  intros r Hr. vm_compute in Hr. exact Hr.
Qed.

Lemma tracked_item_edit_iff_included_witness :
  outbox (final (pollItem (friendly [1] (only fresh_hot)) channel 1 tracked_world))
  = [Edit (Render.editRequest channel (set_MessageID 100 fresh_hot))]
  /\ outbox (final (pollItem (friendly [1] (only fresh_low)) channel 1 tracked_world)) = [].
Proof.
  split.
  - exact (proj1 (tracked_item_edit_iff_included (friendly [1] (only fresh_hot)) channel
                    1 tracked80 fresh_hot tracked_world eq_refl eq_refl eq_refl)).
  - exact (proj1 (tracked_item_edit_iff_included (friendly [1] (only fresh_low)) channel
                    1 tracked80 fresh_low tracked_world eq_refl eq_refl eq_refl)).
Defined.

(** C2, the claim as stated, at a snapshot the decoder rejects: the
    process does not exit, the bot is started. *)
Lemma malformed_snapshot_counterexample :
  startup environ (with_snapshot (Malformed ∅) idle_world) <> FatalExit
  /\ exists bot w',
       startup environ (with_snapshot (Malformed ∅) idle_world) = Started bot w'
       /\ logs w' = [WarnLoadFailed ErrDecodeSnapshot].
Proof.
  split.
  - intros H. vm_compute in H. discriminate H.
  - eexists _, _. split; vm_compute; reflexivity.
Qed.

Lemma startup_with_snapshot_witness :
  exists bot w', startup environ (with_snapshot (Malformed ∅) idle_world) = Started bot w'.
Proof.
  destruct (startup_with_snapshot environ (with_snapshot (Malformed ∅) idle_world))
    as (bot & w' & Hstart & _).
  - intros H. discriminate H.
  - exists bot, w'. exact Hstart.
Defined.


Lemma delete_outcomes_witness :
  returns (deleteMessage (friendly [] (only story80)) channel tracked80 stale_world) = false
  /\ stories (final (deleteMessage (friendly [] (only story80)) channel tracked80 stale_world))
     = delete 1 {[ 1 := tracked80 ]}
  /\ snapshot (final (deleteMessage (friendly [] (only story80)) channel tracked80 stale_world))
     = Document {[ 1 := tracked80 ]}
  /\ returns (cleanup (unmoved [] (only story80)) channel stale_world) = false
  /\ snapshot (final (cleanup (unmoved [] (only story80)) channel stale_world))
     = Document {[ 1 := tracked80 ]}.
Proof.
  destruct (delete_outcomes (friendly [] (only story80)) channel tracked80 stale_world eq_refl)
    as (Hacc & _).
  destruct (Hacc _ eq_refl (or_introl eq_refl)) as (Hret & Hst & _ & Hsn).
  refine (conj Hret (conj Hst (conj Hsn (conj _ _)))); vm_compute; reflexivity.
Defined.

Lemma edit_outcomes_witness :
  send_OK (rejected 400 "Bad Request: message is not modified") = false
  /\ returns (editMessage (unmoved [1] (only fresh_hot)) channel
                (set_MessageID 100 fresh_hot) tracked_world) = false
  /\ stories (final (editMessage (unmoved [1] (only fresh_hot)) channel
                       (set_MessageID 100 fresh_hot) tracked_world))
     = <[ 1 := set_LastSave (5 * Minute) (set_MessageID 100 fresh_hot) ]> {[ 1 := tracked80 ]}
  /\ snapshot (final (editMessage (unmoved [1] (only fresh_hot)) channel
                        (set_MessageID 100 fresh_hot) tracked_world))
     = Document {[ 1 := tracked80 ]}.
Proof.
  destruct (edit_outcomes (unmoved [1] (only fresh_hot)) channel
              (set_MessageID 100 fresh_hot) tracked_world eq_refl eq_refl)
    as (_ & Hposted).
  destruct (Hposted _ eq_refl) as (Hret & Hst & Hsn).
  exact (conj eq_refl (conj Hret (conj Hst Hsn))).
Defined.

Lemma untracked_candidate_send_witness :
  outbox (final (pollItem (friendly [1] (only story80)) channel 1 idle_world))
  = [Send (Render.sendRequest channel story80)]
  /\ returns (pollItem (friendly [1] (only story80)) channel 1 idle_world) = false
  /\ stories (final (pollItem (friendly [1] (only story80)) channel 1 idle_world))
     = {[ 1 := set_LastSave 1000 (set_MessageID 100 story80) ]}
  /\ snapshot (final (pollItem (friendly [1] (only story80)) channel 1 idle_world)) = Absent.
Proof.
  destruct (untracked_candidate_send (friendly [1] (only story80)) channel 1 story80 idle_world
              eq_refl eq_refl eq_refl eq_refl)
    as (Hout & Hacc & _).
  destruct (Hacc _ eq_refl eq_refl) as (Hret & Hst & _ & Hsn).
  exact (conj Hout (conj Hret (conj Hst Hsn))).
Defined.


(** ** Further properties of the engine *)

Section Engine.

Variable E : Env.
Variable b : Config.

(** [saveStory] never returns: either the write lock is not granted, or
    it is and [save] then asks for a read lock on the same mutex.  The
    snapshot is not written in either case. *)
Theorem saveStory_never_returns (story : Story) (w : World) :
  returns (saveStory story w) = false
  /\ snapshot (final (saveStory story w)) = snapshot w.
Proof. rewrite saveStory_spec. destruct (contended w); auto. Qed.

(** Outside of [saveStory] and [deleteMessage] the flush works: with the
    mutex free, the file creatable and the encoder writing to the end,
    [Close] writes the whole map and returns no error. *)
Theorem Close_flushes (w : World) :
  mutex w = unlocked -> createFails w = false -> encodeFault w = None ->
  Close w = Done None (with_snapshot (Document (stories w)) w).
Proof. apply save_granted. Qed.

(** The lookup gates the create path: the goroutine of a tracked id
    posts no send. *)
Theorem send_gated_by_lookup (id : Z) (stored : Story) (w : World) :
  stories w !! id = Some stored ->
  sends (outbox (final (pollItem E b id w))) = sends (outbox w).
Proof.
  intros Hst. destruct (writer (mutex w)) eqn:Hw.
  { now rewrite pollItem_waits. }
  destruct (hn_item E id) as [fresh|] eqn:Hit.
  - rewrite (pollItem_tracked E b id stored fresh) by assumption.
    rewrite editMessage_spec.
    destruct (shouldIgnore _); [reflexivity|]. cbn zeta.
    set (story := set_MessageID (MessageID stored) fresh).
    set (w1 := posted (Edit (Render.editRequest b story)) w).
    assert (Hposted : sends (outbox w1) = sends (outbox w)).
    { unfold sends. cbn. rewrite flat_map_app. apply app_nil_r. }
    pose proof (outbox_saveStory story w1) as Hout.
    destruct (tg_edit E _) as [| |r]; cbn; try exact Hposted;
      (destruct (saveStory story w1) as [[e|] w'|w']; cbn in *; now rewrite Hout).
  - unfold pollItem, bind at 1. rewrite getStoredStory_granted, Hst by assumption.
    unfold getStoryDetails, bind, ret. rewrite Hit. reflexivity.
Qed.

(** A candidate that is not tracked and that the filter excludes is
    neither sent nor recorded. *)
Theorem excluded_candidate_ignored (id : Z) (story : Story) (w : World) :
  stories w !! id = None ->
  hn_item E id = Some story ->
  shouldIgnore story = true ->
  outbox (final (pollItem E b id w)) = outbox w
  /\ stories (final (pollItem E b id w)) = stories w
  /\ snapshot (final (pollItem E b id w)) = snapshot w.
Proof.
  intros Hst Hit Hex. destruct (writer (mutex w)) eqn:Hw.
  - rewrite pollItem_waits by assumption. auto.
  - rewrite (pollItem_untracked E b id story) by assumption.
    rewrite sendMessage_spec, Hex. auto.
Qed.

(** What one goroutine of a poll cycle can change in the map: nothing
    but the record under the id of the item it fetched. *)
Lemma pollItem_frame (i k : Z) (w : World) :
  (forall s, hn_item E i = Some s -> ID s <> k) ->
  stories (final (pollItem E b i w)) !! k = stories w !! k.
Proof.
  intros Hne. destruct (writer (mutex w)) eqn:Hw.
  { now rewrite pollItem_waits. }
  assert (Hsave : forall s w1, ID s <> k -> stories w1 = stories w ->
                    stories (final (saveStory s w1)) !! k = stories w !! k).
  { intros s w1 Hs Hw1. rewrite saveStory_spec.
    destruct (contended w1); cbn; rewrite Hw1; [reflexivity|].
    now rewrite lookup_insert_ne. }
  unfold pollItem, bind at 1. rewrite getStoredStory_granted by assumption.
  destruct (stories w !! i) as [stored|] eqn:Hst;
    unfold getStoryDetails, bind at 1, ret;
    destruct (hn_item E i) as [s|] eqn:Hit; try reflexivity;
    specialize (Hne s eq_refl).
  - unfold bind. rewrite editMessage_spec, shouldIgnore_set_MessageID.
    destruct (shouldIgnore s); [reflexivity|]. cbn zeta.
    destruct (tg_edit E _) as [| |r]; try reflexivity;
      (specialize (Hsave (set_MessageID (MessageID stored) s)
                     (posted (Edit (Render.editRequest b (set_MessageID (MessageID stored) s))) w)
                     Hne eq_refl);
       destruct (saveStory _ _) as [[e|] w'|w']; exact Hsave).
  - unfold bind. rewrite sendMessage_spec.
    destruct (shouldIgnore s); [reflexivity|]. cbn zeta.
    destruct (tg_send E _) as [| |r]; try reflexivity.
    destruct (send_OK r); [|reflexivity].
    specialize (Hsave (set_MessageID (send_Result_MessageID r) s)
                  (posted (Send (Render.sendRequest b s)) w) Hne eq_refl).
    destruct (saveStory _ _) as [[e|] w'|w']; exact Hsave.
Qed.

Lemma goEach_pollItem_keeps (id : Z) (stored fresh : Story) (slots : nat) (ids : list Z) :
  hn_item E id = Some fresh ->
  shouldIgnore fresh = true ->
  (forall i s, In i ids -> hn_item E i = Some s -> ID s = i) ->
  forall w, stories w !! id = Some stored ->
            stories (final (goEach (pollItem E b) slots ids w)) !! id = Some stored.
Proof.
  intros Hit Hex. revert slots.
  induction ids as [|i ids IH]; intros slots Hown w Hst; [exact Hst|].
  cbn. destruct slots as [|k]; [exact Hst|].
  assert (Hstep : stories (final (pollItem E b i w)) !! id = Some stored).
  { destruct (Z.eq_dec i id) as [->|Hne].
    - destruct (pollItem_tracked_excluded E b id stored fresh w Hst Hit Hex) as (_ & -> & _).
      exact Hst.
    - rewrite pollItem_frame; [exact Hst|].
      intros s Hs. rewrite (Hown i s (or_introl eq_refl) Hs). exact Hne. }
  assert (Hrest : forall i' s, In i' ids -> hn_item E i' = Some s -> ID s = i').
  { intros i' s Hi'. apply Hown. now right. }
  destruct (pollItem E b i w) as [[] w'|w']; cbn in *; now apply IH.
Qed.

(** Over a whole poll cycle: when the source answers each request with
    the item asked for, the record of a tracked item whose fresh details
    are excluded is the same after the cycle as before it. *)
Theorem poll_keeps_excluded_record (id : Z) (stored fresh : Story) (w : World) :
  stories w !! id = Some stored ->
  hn_item E id = Some fresh ->
  shouldIgnore fresh = true ->
  (forall i s, hn_item E i = Some s -> ID s = i) ->
  stories (final (poll E b w)) !! id = Some stored.
Proof.
  intros Hst Hit Hex Hown. unfold poll, getTopStories, bind, ret.
  destruct (hn_topstories E) as [ids|]; [|exact Hst].
  pose proof (goEach_pollItem_keeps id stored fresh 3 ids Hit Hex
                (fun i s _ => Hown i s) w Hst) as Hkeep.
  destruct (goEach (pollItem E b) 3 ids w) as [[] w'|w']; exact Hkeep.
Qed.

(** What a cleanup cycle selects: the records whose [LastSave] is
    strictly before the cutoff, 24 hours before now; a record saved
    exactly 24 hours ago is not selected. *)
Theorem cleanup_selection (now : Z) (s : Story) (m : gmap Z Story) :
  In s (oldStoriesOf (now - CleanupInterval) m)
  <-> exists id, m !! id = Some s /\ LastSave s + 24 * Hour < now.
Proof.
  unfold oldStoriesOf, CleanupInterval. rewrite filter_In, in_map_iff, Z.ltb_lt. split.
  - intros [[[id s'] [Hs' Hin]] Hold]. cbn in Hs'. subst s'.
    exists id. split; [|lia].
    now apply elem_of_map_to_list, list_elem_of_In.
  - intros (id & Hm & Hold). split; [|lia].
    exists (id, s). split; [reflexivity|].
    now apply list_elem_of_In, elem_of_map_to_list.
Qed.

End Engine.

Lemma Close_flushes_witness :
  Close tracked_world = Done None tracked_world.
Proof. exact (Close_flushes tracked_world eq_refl eq_refl eq_refl). Defined.

Lemma send_gated_by_lookup_witness :
  sends (outbox (final (pollItem (friendly [1] (only fresh_hot)) channel 1 tracked_world))) = [].
Proof.
  exact (send_gated_by_lookup (friendly [1] (only fresh_hot)) channel 1 tracked80
           tracked_world eq_refl).
Defined.

Lemma excluded_candidate_ignored_witness :
  outbox (final (pollItem (friendly [3] (only empty_url)) channel 3 idle_world)) = []
  /\ stories (final (pollItem (friendly [3] (only empty_url)) channel 3 idle_world)) = ∅.
Proof.
  destruct (excluded_candidate_ignored (friendly [3] (only empty_url)) channel 3 empty_url
              idle_world eq_refl eq_refl eq_refl) as (Hout & Hst & _).
  exact (conj Hout Hst).
Defined.

Lemma poll_keeps_excluded_record_witness :
  stories (final (poll (friendly [1] (only fresh_low)) channel tracked_world)) !! 1
  = Some tracked80.
Proof.
  apply (poll_keeps_excluded_record (friendly [1] (only fresh_low)) channel 1
           tracked80 fresh_low tracked_world eq_refl eq_refl eq_refl).
  intros i s. unfold friendly, only. cbn.
  destruct (Z.eqb_spec i 1) as [->|Hne]; intros H; [injection H as <-; reflexivity | discriminate H].
Defined.

(** ** Effects of the cycles on the store *)

Lemma quiet_refl (w : World) : quiet w w.
Proof. repeat split. Qed.

Lemma quiet_trans (w1 w2 w3 : World) : quiet w1 w2 -> quiet w2 w3 -> quiet w1 w3.
Proof.
  intros (Hs & Hm & Hn) (Hs' & Hm' & Hn'). repeat split; congruence.
Qed.

Lemma held_contended (w : World) : mutex w = held -> contended w = true.
Proof. unfold contended. intros ->. reflexivity. Qed.

Lemma effect_refl (w : World) : effect w w.
Proof. left. apply quiet_refl. Qed.

Lemma effect_trans (w1 w2 w3 : World) : effect w1 w2 -> effect w2 w3 -> effect w1 w3.
Proof.
  intros [Hq | Hz] [Hq' | Hz'].
  - left. eapply quiet_trans; eassumption.
  - right. destruct Hq as (Hs & Hm & Hn). destruct Hz' as (Hc & Hh & Hn' & Hst).
    unfold seized, contended in *. rewrite <- Hm, <- Hs, <- Hn. auto.
  - right. destruct Hz as (Hc & Hh & Hn & Hst). destruct Hq' as (Hs' & Hm' & Hn').
    unfold seized. rewrite Hs', Hm', Hn'. auto.
  - exfalso. destruct Hz as (_ & Hh & _). destruct Hz' as (Hc & _).
    rewrite (held_contended w2 Hh) in Hc. discriminate Hc.
Qed.

Lemma settles_Done {A} (a : A) (w w' : World) : quiet w w' -> settles w (Done a w').
Proof. intros Hq. split; [now left | now intros _]. Qed.

Lemma settles_Parked {A} (w w' : World) : effect w w' -> settles w (@Parked A w').
Proof. intros He. split; [exact He | intros H; discriminate H]. Qed.

Lemma settles_bind {A B} (m : Go A) (k : A -> Go B) (w : World) :
  settles w (m w) ->
  (forall a w', settles w' (k a w')) ->
  settles w (bind m k w).
Proof.
  intros (He & Hq) Hk. unfold bind.
  destruct (m w) as [a w1|w1]; cbn in *.
  - specialize (Hq eq_refl). destruct (Hk a w1) as (He' & Hq'). split.
    + eapply effect_trans; [left; exact Hq | exact He'].
    + intros Hr. eapply quiet_trans; [exact Hq | exact (Hq' Hr)].
  - split; [exact He | intros H; discriminate H].
Qed.

Lemma settles_logPrintf (l : LogLine) (w : World) : settles w (logPrintf l w).
Proof. apply settles_Done. repeat split. Qed.

Lemma settles_ret {A} (a : A) (w : World) : settles w (ret a w).
Proof. apply settles_Done, quiet_refl. Qed.

Lemma quiet_posted (c : SinkCall) (w : World) : quiet w (posted c w).
Proof. repeat split. Qed.

Lemma settles_from {A} (w w1 : World) (r : Res A) : quiet w w1 -> settles w1 r -> settles w r.
Proof.
  intros Hq (He & Hr). split.
  - eapply effect_trans; [left; exact Hq | exact He].
  - intros H. eapply quiet_trans; [exact Hq | exact (Hr H)].
Qed.

Lemma settles_getStoredStory (id : Z) (w : World) : settles w (getStoredStory id w).
Proof.
  destruct (writer (mutex w)) eqn:Hw.
  - rewrite getStoredStory_waits by assumption. apply settles_Parked, effect_refl.
  - rewrite getStoredStory_granted by assumption. apply settles_Done, quiet_refl.
Qed.

Lemma settles_saveStory (story : Story) (w : World) : settles w (saveStory story w).
Proof.
  rewrite saveStory_spec. destruct (contended w) eqn:Hc; apply settles_Parked.
  - apply effect_refl.
  - right. repeat split; try assumption.
    left. exists (set_LastSave (clock w) story). reflexivity.
Qed.

Section Settling.

Variable E : Env.
Variable b : Config.

Lemma settles_sendMessage (story : Story) (w : World) : settles w (sendMessage E b story w).
Proof.
  rewrite sendMessage_spec. destruct (shouldIgnore story); [apply settles_ret|].
  cbn zeta. destruct (tg_send E _) as [| |r];
    try (apply settles_Done, quiet_posted).
  destruct (send_OK r); [|apply settles_Done, quiet_posted].
  eapply settles_from; [apply quiet_posted | apply settles_saveStory].
Qed.

Lemma settles_editMessage (story : Story) (w : World) : settles w (editMessage E b story w).
Proof.
  rewrite editMessage_spec. destruct (shouldIgnore story); [apply settles_ret|].
  cbn zeta. destruct (tg_edit E _) as [| |r];
    try (apply settles_Done, quiet_posted);
    (eapply settles_from; [apply quiet_posted | apply settles_saveStory]).
Qed.

Lemma settles_deleteMessage (story : Story) (w : World) : settles w (deleteMessage E b story w).
Proof.
  rewrite deleteMessage_spec. cbn zeta.
  destruct (tg_delete E _) as [| |r]; try (apply settles_Done, quiet_posted).
  destruct (negb (del_OK r) && negb (shouldIgnoreDeleteError r));
    [apply settles_Done, quiet_posted|].
  destruct (contended w) eqn:Hc; apply settles_Parked.
  - left. apply quiet_posted.
  - right. repeat split; try assumption. right. exists (ID story). reflexivity.
Qed.

Lemma settles_pollItem (id : Z) (w : World) : settles w (pollItem E b id w).
Proof.
  unfold pollItem. apply settles_bind; [apply settles_getStoredStory|].
  intros [stored|] w1; (apply settles_bind; [apply settles_ret|]);
    intros [story|] w2; try apply settles_logPrintf.
  - apply settles_bind; [apply settles_editMessage|].
    intros [e|] w3; apply settles_logPrintf.
  - apply settles_bind; [apply settles_sendMessage|].
    intros [e|] w3; apply settles_logPrintf.
Qed.

Lemma settles_deleteItem (s : Story) (w : World) : settles w (deleteItem E b s w).
Proof.
  unfold deleteItem. apply settles_bind; [apply settles_deleteMessage|].
  intros [e|] w1; apply settles_logPrintf.
Qed.

Lemma settles_goEach {A} (f : A -> Go unit) (slots : nat) (l : list A) :
  (forall x w, settles w (f x w)) ->
  forall w, settles w (goEach f slots l w).
Proof.
  intros Hf. revert slots. induction l as [|x l IH]; intros slots w.
  - apply settles_Done, quiet_refl.
  - cbn. destruct slots as [|k]; [apply settles_Parked, effect_refl|].
    destruct (Hf x w) as (He & Hq).
    destruct (f x w) as [[] w1|w1]; cbn in *.
    + eapply settles_from; [exact (Hq eq_refl) | apply IH].
    + apply settles_Parked. eapply effect_trans; [exact He | apply IH].
Qed.

Lemma settles_poll (w : World) : settles w (poll E b w).
Proof.
  unfold poll, getTopStories. apply settles_bind; [apply settles_ret|].
  intros [ids|] w1; [|apply settles_ret].
  apply settles_bind; [apply settles_goEach, settles_pollItem|].
  intros _ w2. apply settles_ret.
Qed.

Lemma settles_cleanup (w : World) : settles w (cleanup E b w).
Proof.
  unfold cleanup, time_Now, bind at 1.
  destruct (writer (mutex w)) eqn:Hw.
  - unfold bind, RLock. rewrite Hw. apply settles_Parked, effect_refl.
  - unfold bind at 1, RLock. rewrite Hw. unfold bind at 1, get. unfold bind at 1, RUnlock, modify.
    cbn [readers writer mutex with_mutex Nat.pred stories].
    replace (with_mutex _ (with_mutex _ w)) with w
      by (destruct w as [st [rd wr] sn cf ef ck ob lg]; cbn in *; now subst wr).
    apply settles_bind; [apply settles_goEach, settles_deleteItem|].
    intros _ w2. apply settles_ret.
Qed.

Lemma settles_serveTick (t : Tick) (w : World) : settles w (serveTick E b t w).
Proof.
  destruct t as [at_|at_]; cbn [serveTick];
    (apply settles_bind; [apply settles_Done; repeat split|]); intros _ w1.
  - apply settles_bind; [apply settles_poll|].
    intros [e|] w2; [apply settles_logPrintf | apply settles_ret].
  - apply settles_bind; [apply settles_cleanup|].
    intros [e|] w2; [apply settles_logPrintf | apply settles_ret].
Qed.

Lemma settles_serve (ticks : list Tick) (w : World) : settles w (serve E b ticks w).
Proof.
  revert w. induction ticks as [|t ticks IH]; intros w; cbn [serve].
  - apply settles_ret.
  - apply settles_bind; [apply settles_serveTick|]. intros _ w1. apply IH.
Qed.

Lemma settles_run (ticks : list Tick) (w : World) : settles w (run E b ticks w).
Proof.
  unfold run. apply settles_bind; [apply settles_logPrintf|]. intros _ w1.
  apply settles_bind; [apply settles_poll|]. intros [e|] w2.
  - apply settles_bind; [apply settles_logPrintf|]. intros _ w3. apply settles_serve.
  - apply settles_bind; [apply settles_ret|]. intros _ w3. apply settles_serve.
Qed.

End Settling.

Section Bounds.

Variable E : Env.
Variable b : Config.

(** While the bot runs, whatever the collaborators answer and whatever
    ticks are served, the snapshot file is never written: the only calls
    of [save] are made under the write lock. *)
Theorem run_never_writes_snapshot (ticks : list Tick) (w : World) :
  snapshot (final (run E b ticks w)) = snapshot w.
Proof.
  destruct (settles_run E b ticks w) as ([Hq | Hz] & _).
  - now destruct Hq as (_ & _ & Hn).
  - now destruct Hz as (_ & _ & Hn & _).
Qed.

(** Over a whole run the store changes in at most one key, and a run
    that has served all its ticks has left the store and the mutex
    exactly as it found them. *)
Theorem run_changes_at_most_one_record (ticks : list Tick) (w : World) :
  (returns (run E b ticks w) = true ->
   stories (final (run E b ticks w)) = stories w
   /\ mutex (final (run E b ticks w)) = mutex w)
  /\ exists k, forall k', k' <> k ->
       stories (final (run E b ticks w)) !! k' = stories w !! k'.
Proof.
  destruct (settles_run E b ticks w) as (He & Hq). split.
  - intros Hr. destruct (Hq Hr) as (Hs & Hm & _). auto.
  - destruct He as [(Hs & _) | (_ & _ & _ & [[s Hs] | [k Hs]])].
    + exists 0. intros k' _. now rewrite Hs.
    + exists (ID s). intros k' Hk. rewrite Hs. now apply lookup_insert_ne.
    + exists k. intros k' Hk. rewrite Hs. now apply lookup_delete_ne.
Qed.

(** The store stays keyed: when every record is stored under its own
    id before a run, it is so after any number of ticks, whether the run
    has returned or is parked. *)
Theorem run_keeps_store_keyed (ticks : list Tick) (w : World) :
  keyed (stories w) -> keyed (stories (final (run E b ticks w))).
Proof.
  intros Hk.
  destruct (settles_run E b ticks w) as ([(Hs & _) | (_ & _ & _ & [[s Hs] | [k Hs]])] & _);
    rewrite Hs.
  - exact Hk.
  - intros k' s'. rewrite lookup_insert. case_decide as Hid.
    + intros [= <-]. exact Hid.
    + apply Hk.
  - intros k' s'. rewrite lookup_delete. case_decide; [discriminate | apply Hk].
Qed.

End Bounds.

(** ** What the cycles post *)

Lemma grows_refl (P : SinkCall -> Prop) (n : nat) (w : World) : grows P n w w.
Proof. exists []. rewrite app_nil_r. repeat split; [constructor | cbn; lia]. Qed.

Lemma grows_same (P : SinkCall -> Prop) (n : nat) (w w' : World) :
  outbox w' = outbox w -> grows P n w w'.
Proof. intros H. exists []. rewrite app_nil_r. repeat split; [exact H | constructor | cbn; lia]. Qed.

Lemma grows_trans (P : SinkCall -> Prop) (n m : nat) (w1 w2 w3 : World) :
  grows P n w1 w2 -> grows P m w2 w3 -> grows P (n + m) w1 w3.
Proof.
  intros (l1 & H1 & F1 & L1) (l2 & H2 & F2 & L2). exists (l1 ++ l2).
  rewrite H2, H1, <- app_assoc. repeat split.
  - apply Forall_app; auto.
  - rewrite length_app. lia.
Qed.

Lemma grows_weaken (P Q : SinkCall -> Prop) (n m : nat) (w w' : World) :
  (forall c, P c -> Q c) -> (n <= m)%nat -> grows P n w w' -> grows Q m w w'.
Proof.
  intros HPQ Hnm (l & H & F & L). exists l. repeat split; [exact H | | lia].
  eapply Forall_impl; [exact F | exact HPQ].
Qed.

Lemma grows_one (P : SinkCall -> Prop) (c : SinkCall) (w w' : World) :
  P c -> outbox w' = outbox w ++ [c] -> grows P 1 w w'.
Proof. intros Hc H. exists [c]. repeat split; [exact H | now constructor | cbn; lia]. Qed.

(** The goroutines of a cycle post what each of them posts. *)
Lemma grows_goEach {A} (P : SinkCall -> Prop) (f : A -> Go unit) (l : list A) :
  (forall x, In x l -> forall w, grows P 1 w (final (f x w))) ->
  forall slots w, grows P (length l) w (final (goEach f slots l w)).
Proof.
  induction l as [|x l IH]; intros Hf slots w; [apply grows_refl|].
  cbn [goEach length]. destruct slots as [|k]; [apply grows_refl|].
  pose proof (Hf x (or_introl eq_refl) w) as Hx.
  assert (Hl : forall y, In y l -> forall w, grows P 1 w (final (f y w)))
    by (intros y Hy; apply Hf; now right).
  destruct (f x w) as [[] w1|w1]; cbn in *.
  - exact (grows_trans P 1 (length l) _ _ _ Hx (IH Hl (S k) w1)).
  - exact (grows_trans P 1 (length l) _ _ _ Hx (IH Hl k w1)).
Qed.

Section Posting.

Variable E : Env.
Variable b : Config.

Lemma grows_pollItem (id : Z) (w : World) :
  grows (fun c => exists s, hn_item E id = Some s /\ shouldIgnore s = false /\ announces b s c)
    1 w (final (pollItem E b id w)).
Proof.
  destruct (writer (mutex w)) eqn:Hw.
  { rewrite pollItem_waits by assumption. apply grows_refl. }
  unfold pollItem, bind at 1. rewrite getStoredStory_granted by assumption.
  destruct (stories w !! id) as [stored|];
    unfold getStoryDetails, bind at 1, ret;
    destruct (hn_item E id) as [s|] eqn:Hit; try (apply grows_same; reflexivity).
  - unfold bind. rewrite editMessage_spec, shouldIgnore_set_MessageID.
    destruct (shouldIgnore s) eqn:Hin; [apply grows_same; reflexivity|]. cbn zeta.
    set (story := set_MessageID (MessageID stored) s).
    set (w1 := posted (Edit (Render.editRequest b story)) w).
    assert (Hc : exists s0, Some s = Some s0 /\ shouldIgnore s0 = false
                            /\ announces b s0 (Edit (Render.editRequest b story))).
    { exists s. repeat split; [exact Hin|]. right. now exists (MessageID stored). }
    pose proof (outbox_saveStory story w1) as Hout.
    destruct (tg_edit E _) as [| |r];
      try (destruct (saveStory story w1) as [[e|] w'|w']);
      (eapply grows_one; [exact Hc | cbn in *; try rewrite Hout; reflexivity]).
  - unfold bind. rewrite sendMessage_spec.
    destruct (shouldIgnore s) eqn:Hin; [apply grows_same; reflexivity|]. cbn zeta.
    set (w1 := posted (Send (Render.sendRequest b s)) w).
    assert (Hc : exists s0, Some s = Some s0 /\ shouldIgnore s0 = false
                            /\ announces b s0 (Send (Render.sendRequest b s))).
    { exists s. repeat split; [exact Hin|]. now left. }
    destruct (tg_send E _) as [| |r];
      try (eapply grows_one; [exact Hc | reflexivity]).
    destruct (send_OK r); [|eapply grows_one; [exact Hc | reflexivity]].
    pose proof (outbox_saveStory (set_MessageID (send_Result_MessageID r) s) w1) as Hout.
    destruct (saveStory _ w1) as [[e|] w'|w'];
      (eapply grows_one; [exact Hc | cbn in *; rewrite Hout; reflexivity]).
Qed.

(** What the goroutines of a poll cycle post, candidate by candidate. *)
Lemma poll_posts_per_candidate (w : World) :
  exists per,
    outbox (final (poll E b w)) = outbox w ++ concat per
    /\ Forall2 (fun id calls =>
                  (length calls <= 1)%nat
                  /\ Forall (fun c => exists s, hn_item E id = Some s
                                               /\ shouldIgnore s = false
                                               /\ announces b s c) calls)
         (candidates E) per.
Proof.
  unfold poll, getTopStories, bind, ret, candidates.
  destruct (hn_topstories E) as [ids|];
    [|exists []; cbn; rewrite app_nil_r; split; [reflexivity | constructor]].
  assert (Hg : forall slots w0,
            exists per,
              outbox (final (goEach (pollItem E b) slots ids w0)) = outbox w0 ++ concat per
              /\ Forall2 (fun id calls =>
                            (length calls <= 1)%nat
                            /\ Forall (fun c => exists s, hn_item E id = Some s
                                                         /\ shouldIgnore s = false
                                                         /\ announces b s c) calls)
                   ids per).
  { induction ids as [|id ids IH]; intros slots w0.
    - exists []. cbn. rewrite app_nil_r. split; [reflexivity | constructor].
    - cbn [goEach]. destruct slots as [|k].
      + exists ([] :: map (fun _ => []) ids). cbn.
        assert (Hnil : concat (map (fun _ : Z => @nil SinkCall) ids) = [])
          by (clear; induction ids as [|i ids IH]; [reflexivity | exact IH]).
        rewrite Hnil, app_nil_r. split; [reflexivity|].
        constructor; [split; [cbn; lia | constructor]|].
        clear. induction ids as [|i ids IH]; constructor;
          [split; [cbn; lia | constructor] | exact IH].
      + destruct (grows_pollItem id w0) as (calls & Hout & Hall & Hlen).
        destruct (pollItem E b id w0) as [[] w1|w1]; cbn [final] in *;
          [destruct (IH (S k) w1) as (per & Hper & Hfor)
          |destruct (IH k w1) as (per & Hper & Hfor)];
          exists (calls :: per); cbn [concat];
          (split; [rewrite Hper, Hout, <- app_assoc; reflexivity|]);
          (constructor; [split; assumption | exact Hfor]). }
  destruct (Hg 3%nat w) as (per & Hper & Hfor).
  exists per. split; [|exact Hfor].
  destruct (goEach (pollItem E b) 3 ids w) as [[] w'|w']; exact Hper.
Qed.

(** A poll cycle posts at most one message for each listed candidate,
    and only a send or an edit about that candidate, whose fetched
    details pass the filter: nothing is ever posted about an excluded
    item, no candidate gets two messages in one cycle, and no delete is
    posted.  The order in which the messages of different candidates
    reach the sink is left open. *)
Theorem poll_posts_only_included (w : World) :
  exists new per,
    outbox (final (poll E b w)) = outbox w ++ new
    /\ new ≡ₚ concat per
    /\ Forall2 (fun id calls =>
                  (length calls <= 1)%nat
                  /\ Forall (fun c => exists s, hn_item E id = Some s
                                               /\ shouldIgnore s = false
                                               /\ announces b s c) calls)
         (candidates E) per.
Proof.
  destruct (poll_posts_per_candidate w) as (per & Hout & Hfor).
  exists (concat per), per. auto.
Qed.

Lemma grows_deleteItem (s : Story) (w : World) :
  grows (fun c => c = Delete (Render.deleteRequest b s)) 1 w (final (deleteItem E b s w)).
Proof.
  unfold deleteItem, bind. rewrite deleteMessage_spec. cbn zeta.
  destruct (tg_delete E _) as [| |r]; try (eapply grows_one; reflexivity).
  destruct (negb (del_OK r) && negb (shouldIgnoreDeleteError r));
    [eapply grows_one; reflexivity|].
  destruct (contended w); eapply grows_one; reflexivity.
Qed.

(** A cleanup cycle posts nothing but delete requests, each for the
    message of a record that was older than the cutoff when the cycle
    started, and no more of them than there are such records. *)
Theorem cleanup_posts_only_stale_deletes (w : World) :
  exists new,
    outbox (final (cleanup E b w)) = outbox w ++ new
    /\ (length new <= length (staleAt w))%nat
    /\ Forall (fun c => exists s, In s (staleAt w) /\ c = Delete (Render.deleteRequest b s)) new.
Proof.
  assert (H : grows (fun c => exists s, In s (staleAt w)
                                        /\ c = Delete (Render.deleteRequest b s))
                (length (staleAt w)) w (final (cleanup E b w))).
  { unfold cleanup, time_Now, bind at 1.
    destruct (writer (mutex w)) eqn:Hw.
    - unfold bind, RLock. rewrite Hw. apply grows_refl.
    - unfold bind at 1, RLock. rewrite Hw. unfold bind at 1, get.
      unfold bind at 1, RUnlock, modify.
      cbn [readers writer mutex with_mutex Nat.pred stories].
      replace (with_mutex _ (with_mutex _ w)) with w
        by (destruct w as [st [rd wr] sn cf ef ck ob lg]; cbn in *; now subst wr).
      fold (staleAt w). unfold bind, ret.
      assert (Hg := grows_goEach
                      (fun c => exists s, In s (staleAt w)
                                          /\ c = Delete (Render.deleteRequest b s))
                      (deleteItem E b) (staleAt w)).
      specialize (Hg (fun s Hs w0 =>
                        grows_weaken _ _ 1 1 _ _
                          (fun c Hc => ex_intro _ s (conj Hs Hc))
                          (le_n 1) (grows_deleteItem s w0)) 5%nat w).
      destruct (goEach (deleteItem E b) 5 (staleAt w) w) as [[] w'|w']; exact Hg. }
  destruct H as (new & Hout & Hall & Hlen). exists new. auto.
Qed.

End Posting.

(** ** Cycles to the end *)

Section Whole.

Variable E : Env.
Variable b : Config.




Lemma pollItem_nothing_to_post (id : Z) (w : World) :
  writer (mutex w) = false ->
  (forall s, hn_item E id = Some s -> shouldIgnore s = true) ->
  exists w', pollItem E b id w = Done tt w'
             /\ writer (mutex w') = false
             /\ outbox w' = outbox w /\ stories w' = stories w.
Proof.
  intros Hw Hex. unfold pollItem, bind at 1. rewrite getStoredStory_granted by assumption.
  destruct (stories w !! id) as [stored|];
    unfold getStoryDetails, bind at 1, ret;
    destruct (hn_item E id) as [s|] eqn:Hit;
    try (eexists; split; [reflexivity | auto]);
    specialize (Hex s eq_refl); unfold bind.
  - rewrite editMessage_spec, shouldIgnore_set_MessageID, Hex.
    eexists; split; [reflexivity | auto].
  - rewrite sendMessage_spec, Hex. eexists; split; [reflexivity | auto].
Qed.

Lemma goEach_nothing_to_post (slots : nat) (ids : list Z) (w : World) :
  writer (mutex w) = false ->
  (forall id s, hn_item E id = Some s -> shouldIgnore s = true) ->
  exists w', goEach (pollItem E b) (S slots) ids w = Done tt w'
             /\ writer (mutex w') = false
             /\ outbox w' = outbox w /\ stories w' = stories w.
Proof.
  intros Hw Hex. revert w Hw. induction ids as [|id ids IH]; intros w Hw.
  - exists w. auto.
  - cbn [goEach].
    destruct (pollItem_nothing_to_post id w Hw (Hex id)) as (w1 & -> & Hw1 & Ho1 & Hs1).
    destruct (IH w1 Hw1) as (w2 & -> & Hw2 & Ho2 & Hs2).
    exists w2. repeat split; congruence.
Qed.

Lemma poll_nothing_to_post (w : World) :
  writer (mutex w) = false ->
  (forall id s, hn_item E id = Some s -> shouldIgnore s = true) ->
  exists r w', poll E b w = Done r w'
               /\ writer (mutex w') = false
               /\ outbox w' = outbox w /\ stories w' = stories w.
Proof.
  intros Hw Hex. unfold poll, getTopStories, bind, ret.
  destruct (hn_topstories E) as [ids|]; [|eexists _, _; split; [reflexivity | auto]].
  destruct (goEach_nothing_to_post 2 ids w Hw Hex) as (w' & -> & H).
  eexists _, _; split; [reflexivity | exact H].
Qed.

(** When nothing the source returns passes the filter (or the source
    fails), the initial poll and every poll tick after it complete: the
    run returns, having posted nothing and changed no record. *)
Theorem idle_polls_complete (ticks : list Tick) (w : World) :
  writer (mutex w) = false ->
  (forall id s, hn_item E id = Some s -> shouldIgnore s = true) ->
  forallb isPollTick ticks = true ->
  returns (run E b ticks w) = true
  /\ outbox (final (run E b ticks w)) = outbox w
  /\ stories (final (run E b ticks w)) = stories w.
Proof.
  intros Hw Hex Hticks.
  assert (Hserve : forall w0, writer (mutex w0) = false ->
            exists w', serve E b ticks w0 = Done tt w'
                       /\ outbox w' = outbox w0 /\ stories w' = stories w0).
  { induction ticks as [|t ticks IH]; intros w0 Hw0.
    - exists w0. auto.
    - cbn in Hticks. apply andb_prop in Hticks as [Ht Hrest].
      destruct t as [at_|at_]; [|discriminate Ht].
      cbn [serve serveTick]. unfold bind at 1. unfold bind at 1. unfold modify at 1.
      unfold bind at 1.
      destruct (poll_nothing_to_post (with_clock at_ w0) Hw0 Hex)
        as (r & w1 & -> & Hw1 & Ho1 & Hs1).
      assert (Hlog : exists w2, (match r with
                                 | Some e => logPrintf (LogPollError e)
                                 | None => ret tt
                                 end) w1 = Done tt w2
                                /\ writer (mutex w2) = false
                                /\ outbox w2 = outbox w1 /\ stories w2 = stories w1)
        by (destruct r; eexists; split; [reflexivity | auto | reflexivity | auto]).
      destruct Hlog as (w2 & -> & Hw2 & Ho2 & Hs2).
      destruct (IH Hrest w2 Hw2) as (w3 & -> & Ho3 & Hs3).
      exists w3. cbn in *. repeat split; congruence. }
  assert (Hrun : exists w', run E b ticks w = Done tt w'
                            /\ outbox w' = outbox w /\ stories w' = stories w).
  { unfold run, bind at 1. unfold logPrintf at 1, modify at 1. unfold bind at 1.
    destruct (poll_nothing_to_post (with_logs (logs w ++ [LogBotStarted]) w) Hw Hex)
      as (r & w1 & -> & Hw1 & Ho1 & Hs1).
    unfold bind at 1.
    assert (Hlog : exists w2, (match r with
                               | Some e => logPrintf (LogInitialPollError e)
                               | None => ret tt
                               end) w1 = Done tt w2
                              /\ writer (mutex w2) = false
                              /\ outbox w2 = outbox w1 /\ stories w2 = stories w1)
      by (destruct r; eexists; split; [reflexivity | auto | reflexivity | auto]).
    destruct Hlog as (w2 & -> & Hw2 & Ho2 & Hs2).
    destruct (Hserve w2 Hw2) as (w3 & -> & Ho3 & Hs3).
    exists w3. cbn in *. repeat split; congruence. }
  destruct Hrun as (w' & -> & Ho & Hs). cbn. auto.
Qed.

End Whole.

(** ** Links and the classification of delete errors *)

Lemma chars_inj (s t : string) : chars s = chars t -> s = t.
Proof.
  revert t. induction s as [|c s IH]; intros [|d t] H; try discriminate H; [reflexivity|].
  cbn in H. injection H as -> H. f_equal. now apply IH.
Qed.

Lemma append_inv_tail (s t u : string) : (s ++ u = t ++ u)%string -> s = t.
Proof.
  intros H. apply chars_inj. apply (f_equal chars) in H.
  rewrite !chars_append in H. now apply app_inv_tail in H.
Qed.

Lemma append_inv_head (s t u : string) : (u ++ s = u ++ t)%string -> s = t.
Proof.
  intros H. apply chars_inj. apply (f_equal chars) in H.
  rewrite !chars_append in H. now apply app_inv_head in H.
Qed.

Lemma FormatInt_inj (n m : Z) : Strings.FormatInt n = Strings.FormatInt m -> n = m.
Proof.
  unfold Strings.FormatInt. intros H.
  assert (Hparse : forall z, NilZero.int_of_string (NilZero.string_of_int (Z.to_int z))
                             = Some (Z.to_int z)).
  { intros z. apply NilZero.isi; destruct z; cbn; try discriminate;
      intros [= Hnil]; now apply Unsigned.to_uint_nonnil in Hnil. }
  apply (f_equal NilZero.int_of_string) in H. rewrite !Hparse in H.
  injection H as H. apply (f_equal Z.of_int) in H. now rewrite !DecimalZ.of_to in H.
Qed.

(** Two items have the same discussion page, or the same address at the
    source, only when they have the same id. *)
Theorem links_identify_items (i j : Z) :
  (Render.newsURL i = Render.newsURL j <-> i = j)
  /\ (itemURL i = itemURL j <-> i = j).
Proof.
  split; (split; [|now intros ->]); intros H.
  - unfold Render.newsURL in H. now apply append_inv_head, FormatInt_inj in H.
  - unfold itemURL in H.
    apply append_inv_head, append_inv_head in H.
    now apply append_inv_tail, FormatInt_inj in H.
Qed.

Lemma prefix_spec (p s : string) :
  String.prefix p s = true <-> exists post, s = (p ++ post)%string.
Proof.
  revert s. induction p as [|c p IH]; intros s.
  - split; [intros _; now exists s | now destruct s].
  - destruct s as [|d s]; cbn.
    + split; [discriminate | intros (post & H); discriminate H].
    + destruct (Ascii.ascii_dec c d) as [<- | Hne].
      * rewrite IH. split; intros (post & H); exists post; [now rewrite H | now injection H].
      * split; [discriminate | intros (post & H); injection H as H _; congruence].
Qed.

Lemma Contains_spec (s sub : string) :
  Strings.Contains s sub = true <-> exists pre post, s = (pre ++ sub ++ post)%string.
Proof.
  induction s as [|c s IH]; cbn [Strings.Contains]; rewrite orb_true_iff, prefix_spec.
  - split.
    + intros [(post & H) | H]; [|discriminate H]. now exists ""%string, post.
    + intros (pre & post & H). left.
      destruct pre; [now exists post | discriminate H].
  - rewrite IH. split.
    + intros [(post & H) | (pre & post & H)].
      * now exists ""%string, post.
      * exists (String c pre), post. cbn. now rewrite H.
    + intros (pre & post & H). destruct pre as [|d pre].
      * left. now exists post.
      * right. injection H as _ H. now exists pre, post.
Qed.

(** A rejected deletion is ignored exactly when its error code is 400
    and its description has one of the two phrases somewhere in it; with
    any other code the description does not matter. *)
Theorem shouldIgnoreDeleteError_iff (resp : DeleteMessageResponse) :
  shouldIgnoreDeleteError resp = true
  <-> del_ErrorCode resp = 400
      /\ exists pre post,
           del_Description resp = (pre ++ "message to delete not found" ++ post)%string
           \/ del_Description resp = (pre ++ "message can't be deleted" ++ post)%string.
Proof.
  unfold shouldIgnoreDeleteError.
  rewrite andb_true_iff, orb_true_iff, Z.eqb_eq, !Contains_spec. split.
  - intros (Hc & [(pre & post & H) | (pre & post & H)]); (split; [exact Hc|]);
      exists pre, post; auto.
  - intros (Hc & pre & post & [H | H]); (split; [exact Hc|]);
      [left | right]; now exists pre, post.
Qed.

(** ** Start-up and shutdown *)

(** The process exits at start-up exactly when [BOT_KEY] is empty; it
    never waits on the mutex there.  A bot that starts has the key given,
    a chat id and a data path that are not empty, a free mutex and an
    untouched snapshot file. *)
Theorem startup_fatal_iff (env : Environ) (w : World) :
  (startup env w = FatalExit <-> BOT_KEY env = ""%string)
  /\ (forall w', startup env w <> Stuck w')
  /\ (forall bot w', startup env w = Started bot w' ->
        BotKey bot = BOT_KEY env /\ ChatID bot <> ""%string /\ DataPath bot <> ""%string
        /\ mutex w' = unlocked /\ snapshot w' = snapshot w /\ outbox w' = outbox w).
Proof.
  unfold startup, loadConfig.
  destruct (String.eqb_spec (BOT_KEY env) "") as [Hkey | Hkey].
  - repeat split; try (intros; discriminate); auto.
  - unfold NewBot, load, bind, modify, get, ret, Lock, Unlock, logPrintf. cbn.
    assert (Hchat : (if String.eqb (CHAT_ID env) "" then "@@hacker_news_wooo"%string
                     else CHAT_ID env) <> ""%string).
    { destruct (String.eqb_spec (CHAT_ID env) ""); [discriminate | assumption]. }
    assert (Hpath : (if String.eqb (DATA_PATH env) "" then "stories.json"%string
                     else DATA_PATH env) <> ""%string).
    { destruct (String.eqb_spec (DATA_PATH env) ""); [discriminate | assumption]. }
    destruct (snapshot w) as [| |m|m] eqn:Hsn; cbn;
      (split; [split; [discriminate | intros H; now destruct Hkey]|]);
      (split; [intros w' H; discriminate H|]);
      intros bot w' [= <- <-]; cbn; rewrite ?Hsn; auto 10.
Qed.

(** What [NewBot] leaves in the store: what was in memory before is
    dropped; a snapshot that decodes is loaded whole and silently, one
    that cannot be opened gives an empty store and a warning, as an
    absent one gives an empty store.  [NewBot] never returns an error. *)
Theorem NewBot_store (config : Config) (w : World) :
  exists w',
    NewBot config w = Done (Some config, None) w'
    /\ mutex w' = unlocked
    /\ stories w' = match snapshot w with
                    | Absent | Unreadable => ∅
                    | Document m | Malformed m => m
                    end
    /\ logs w' = logs w ++ match snapshot w with
                           | Absent | Document _ => []
                           | Unreadable => [WarnLoadFailed ErrOpen]
                           | Malformed _ => [WarnLoadFailed ErrDecodeSnapshot]
                           end.
Proof.
  unfold NewBot, load, bind, modify, get, ret, Lock, Unlock, logPrintf. cbn.
  destruct (snapshot w) as [| |m|m]; cbn; eexists;
    (split; [reflexivity|]); (split; [reflexivity|]); split;
    try reflexivity; try (now rewrite app_nil_r); apply (right_id_L ∅ (∪)).
Qed.

(** The flush at shutdown: while no writer holds the mutex [Close]
    returns with the mutex as it was and the map untouched.  It returns
    an error exactly when the file cannot be created or the encoder
    fails.  When the file cannot be created the old snapshot is still
    there; when the encoder fails the old snapshot is gone and the file
    holds what the failed write left; otherwise the snapshot is the whole
    map. *)
Theorem Close_outcomes (w : World) :
  writer (mutex w) = false ->
  exists err w',
    Close w = Done err w'
    /\ mutex w' = mutex w
    /\ stories w' = stories w
    /\ (err = None <-> createFails w = false /\ encodeFault w = None)
    /\ (createFails w = true -> err = Some ErrCreate /\ snapshot w' = snapshot w)
    /\ (createFails w = false ->
        forall f, encodeFault w = Some f -> err = Some ErrEncode /\ snapshot w' = f)
    /\ (createFails w = false -> encodeFault w = None ->
        snapshot w' = Document (stories w)).
Proof.
  intros Hw. unfold Close, save, bind, RLock, RUnlock, modify, get, ret.
  rewrite Hw. cbn.
  assert (Hmu : {| readers := readers (mutex w); writer := false |} = mutex w)
    by (destruct (mutex w) as [rd wr]; cbn in *; now subst wr).
  destruct (createFails w) eqn:Hc; [|destruct (encodeFault w) as [f|] eqn:He]; cbn;
    eexists _, _; (split; [reflexivity|]); cbn;
    (split; [exact Hmu|]); (split; [reflexivity|]).
  - split; [split; [discriminate | intros [H _]; discriminate H]|].
    split; [auto|]. split; intros H; discriminate H.
  - split; [split; [discriminate | intros [_ H]; discriminate H]|].
    split; [intros H; discriminate H|].
    split; [intros _ f' [= <-]; auto | intros _ H; discriminate H].
  - split; [split; auto|].
    split; [intros H; discriminate H|].
    split; [intros _ f' H; discriminate H | auto].
Qed.

(** ** Concrete runs of the further properties *)

Lemma run_keeps_store_keyed_witness :
  keyed (stories (final (run (friendly [1; 2] both) channel
                           [PollTick (5 * Minute); CleanupTick (25 * Hour)] tracked_world))).
Proof.
  apply run_keeps_store_keyed.
  intros k s. unfold tracked_world. cbn [stories].
  rewrite lookup_singleton. case_decide as Hk; [|discriminate].
  intros [= <-]. now rewrite <- Hk.
Defined.


Lemma idle_polls_complete_witness :
  returns (run (friendly [1] (only fresh_low)) channel
             [PollTick (5 * Minute); PollTick (10 * Minute)] tracked_world) = true
  /\ outbox (final (run (friendly [1] (only fresh_low)) channel
                      [PollTick (5 * Minute); PollTick (10 * Minute)] tracked_world)) = [].
Proof.
  destruct (idle_polls_complete (friendly [1] (only fresh_low)) channel
              [PollTick (5 * Minute); PollTick (10 * Minute)] tracked_world eq_refl)
    as (Hret & Hout & _).
  - intros id s. unfold friendly, only. cbn.
    destruct (id =? 1); intros [= <-]. reflexivity.
  - reflexivity.
  - exact (conj Hret Hout).
Defined.

Lemma Close_outcomes_witness :
  exists err w', Close readonly_world = Done err w'
                 /\ err = Some ErrCreate /\ snapshot w' = Absent.
Proof.
  destruct (Close_outcomes readonly_world eq_refl)
    as (err & w' & Hclose & _ & _ & _ & Hcreate & _).
  destruct (Hcreate eq_refl) as (Herr & Hsn).
  exists err, w'. exact (conj Hclose (conj Herr Hsn)).
Defined.

(** ** Restart *)

Lemma pollItem_tracked_sends (E : Env) (b : Config) (id : Z) (stored : Story) (w : World) :
  stories w !! id = Some stored ->
  writer (mutex w) = false ->
  sends (outbox (final (pollItem E b id w))) = sends (outbox w).
Proof.
  intros Hst Hw. unfold pollItem, bind at 1.
  rewrite getStoredStory_granted, Hst by assumption.
  unfold getStoryDetails, bind at 1, ret.
  destruct (hn_item E id) as [fresh|]; [|reflexivity].
  unfold bind. rewrite editMessage_spec.
  destruct (shouldIgnore _); [reflexivity|]. cbn zeta.
  set (story := set_MessageID (MessageID stored) fresh).
  set (w1 := posted (Edit (Render.editRequest b story)) w).
  assert (Hposted : sends (outbox w1) = sends (outbox w)).
  { unfold sends. cbn. rewrite flat_map_app. apply app_nil_r. }
  pose proof (outbox_saveStory story w1) as Hout.
  destruct (tg_edit E _) as [| |r]; cbn; try exact Hposted;
    (destruct (saveStory story w1) as [[e|] w'|w']; cbn in *; now rewrite Hout).
Qed.

(** A restart does not post a tracked item again: when the snapshot
    decodes to a map that holds [id], the bot started from it finds [id]
    in its store, and the goroutine of its first poll for [id] posts no
    send, whatever was in memory before the restart. *)
Theorem restart_recognises_tracked_items
    (E : Env) (env : Environ) (id : Z) (stored : Story) (m : gmap Z Story) (w : World) :
  BOT_KEY env <> ""%string ->
  snapshot w = Document m ->
  m !! id = Some stored ->
  exists bot w',
    startup env w = Started bot w'
    /\ stories w' !! id = Some stored
    /\ sends (outbox (final (pollItem E bot id w'))) = sends (outbox w).
Proof.
  intros Hkey Hsn Hm. unfold startup, loadConfig.
  apply String.eqb_neq in Hkey. rewrite Hkey.
  unfold NewBot, load, bind, modify, get, ret, Lock, Unlock, logPrintf. cbn.
  rewrite Hsn. cbn.
  set (w' := with_mutex _ (with_stories (m ∪ ∅) _)).
  exists {| BotKey := BOT_KEY env;
            ChatID := if String.eqb (CHAT_ID env) "" then "@@hacker_news_wooo" else CHAT_ID env;
            DataPath := if String.eqb (DATA_PATH env) "" then "stories.json" else DATA_PATH env |},
         w'.
  split; [reflexivity|].
  assert (Hst : stories w' !! id = Some stored)
    by (subst w'; cbn; now rewrite (right_id_L ∅ (∪))).
  split; [exact Hst|].
  rewrite (pollItem_tracked_sends E _ id stored w' Hst) by reflexivity.
  reflexivity.
Qed.

Lemma restart_recognises_tracked_items_witness :
  exists bot w',
    startup environ tracked_world = Started bot w'
    /\ sends (outbox (final (pollItem (friendly [1] (only fresh_hot)) bot 1 w'))) = [].
Proof.
  destruct (restart_recognises_tracked_items (friendly [1] (only fresh_hot)) environ 1
              tracked80 {[ 1 := tracked80 ]} tracked_world)
    as (bot & w' & Hstart & _ & Hsends).
  - intros H. discriminate H.
  - reflexivity.
  - reflexivity.
  - exists bot, w'. exact (conj Hstart Hsends).
Defined.

(** ** Two poll cycles *)

Section TwoCycles.

Variable E : Env.
Variable b : Config.

(** The goroutine of a new candidate that passes the filter and whose
    send is accepted never returns. *)
Lemma pollItem_accepted_parks (id : Z) (story : Story) (r : SendMessageResponse) (w : World) :
  stories w !! id = None ->
  hn_item E id = Some story ->
  shouldIgnore story = false ->
  tg_send E (Render.sendRequest b story) = Body r ->
  send_OK r = true ->
  returns (pollItem E b id w) = false.
Proof.
  intros Hst Hit Hin Hans Hok. destruct (writer (mutex w)) eqn:Hw.
  { now rewrite pollItem_waits. }
  rewrite (pollItem_untracked E b id story) by assumption.
  rewrite sendMessage_spec, Hin. cbn zeta. rewrite Hans, Hok, saveStory_spec.
  destruct (contended _); reflexivity.
Qed.

Lemma goEach_accepted_parks
    (id : Z) (story : Story) (r : SendMessageResponse) (slots : nat) (ids : list Z) :
  In id ids ->
  hn_item E id = Some story ->
  shouldIgnore story = false ->
  tg_send E (Render.sendRequest b story) = Body r ->
  send_OK r = true ->
  forall w, stories w !! id = None ->
            returns (goEach (pollItem E b) slots ids w) = false.
Proof.
  intros Hid Hit Hin Hans Hok.
  induction ids as [|x ids IH]; intros w Hst; [destruct Hid|].
  cbn [goEach]. destruct slots as [|k]; [reflexivity|].
  destruct (settles_pollItem E b x w) as (_ & Hquiet).
  destruct (pollItem E b x w) as [[] w1|w1] eqn:Hx; [|reflexivity].
  destruct (Hquiet eq_refl) as (Hs1 & _). cbn in Hs1.
  destruct Hid as [-> | Hrest].
  - pose proof (pollItem_accepted_parks id story r w Hst Hit Hin Hans Hok) as Hpark.
    rewrite Hx in Hpark. discriminate Hpark.
  - apply IH; [exact Hrest | now rewrite Hs1].
Qed.

(** While the store is empty or the write lock is held for good, no
    goroutine of a poll cycle posts an edit. *)
Lemma pollItem_posts_no_edit (id : Z) (w : World) :
  stories w = ∅ \/ writer (mutex w) = true ->
  edits (outbox (final (pollItem E b id w))) = edits (outbox w)
  /\ (stories (final (pollItem E b id w)) = ∅
      \/ writer (mutex (final (pollItem E b id w))) = true).
Proof.
  intros Hinv. split.
  - destruct (writer (mutex w)) eqn:Hw.
    { now rewrite pollItem_waits. }
    destruct Hinv as [Hempty | Habs]; [|discriminate Habs].
    assert (Hst : stories w !! id = None) by (rewrite Hempty; apply lookup_empty).
    unfold pollItem, bind at 1. rewrite getStoredStory_granted, Hst by assumption.
    unfold getStoryDetails, bind at 1, ret.
    destruct (hn_item E id) as [s|]; [|reflexivity].
    unfold bind. rewrite sendMessage_spec.
    destruct (shouldIgnore s); [reflexivity|]. cbn zeta.
    set (w1 := posted (Send (Render.sendRequest b s)) w).
    assert (Hposted : edits (outbox w1) = edits (outbox w)).
    { unfold edits. cbn. rewrite flat_map_app. apply app_nil_r. }
    destruct (tg_send E _) as [| |r]; try exact Hposted.
    destruct (send_OK r); [|exact Hposted].
    pose proof (outbox_saveStory (set_MessageID (send_Result_MessageID r) s) w1) as Hout.
    destruct (saveStory _ w1) as [[e|] w'|w']; cbn in *; now rewrite Hout.
  - destruct (settles_pollItem E b id w) as ([(Hs & Hm & _) | (_ & Hh & _)] & _).
    + rewrite Hs, Hm. exact Hinv.
    + right. now rewrite Hh.
Qed.

Lemma goEach_posts_no_edit (slots : nat) (ids : list Z) (w : World) :
  stories w = ∅ \/ writer (mutex w) = true ->
  edits (outbox (final (goEach (pollItem E b) slots ids w))) = edits (outbox w).
Proof.
  revert slots w. induction ids as [|id ids IH]; intros slots w Hinv; [reflexivity|].
  cbn [goEach]. destruct slots as [|k]; [reflexivity|].
  destruct (pollItem_posts_no_edit id w Hinv) as (Hed & Hinv').
  destruct (pollItem E b id w) as [[] w1|w1]; cbn [final] in *;
    rewrite IH by exact Hinv'; exact Hed.
Qed.

Lemma concat_length_bound {A} (Q : A -> list SinkCall -> Prop) (l : list A)
    (per : list (list SinkCall)) :
  Forall2 (fun x calls => (length calls <= 1)%nat /\ Q x calls) l per ->
  (length (concat per) <= length l)%nat.
Proof.
  induction 1 as [|x calls l per [Hlen _] _ IH]; cbn; [lia|].
  rewrite length_app. lia.
Qed.

(** C7.  When some candidate of the first cycle is a new item that
    passes the filter and whose send the sink accepts, the first cycle
    never returns, whatever ticks follow: a goroutine that reaches
    [saveStory] waits there for good.  So no second cycle is ever run:
    over the whole run no more messages are posted than the first cycle
    has candidates, the snapshot is never written, and a bot started
    with an empty store never posts an edit. *)
Theorem first_send_stalls_the_bot
    (id : Z) (ids : list Z) (story : Story) (r : SendMessageResponse)
    (ticks : list Tick) (w : World) :
  hn_topstories E = Some ids ->
  In id ids ->
  stories w !! id = None ->
  hn_item E id = Some story ->
  shouldIgnore story = false ->
  tg_send E (Render.sendRequest b story) = Body r ->
  send_OK r = true ->
  returns (run E b ticks w) = false
  /\ snapshot (final (run E b ticks w)) = snapshot w
  /\ (exists new, outbox (final (run E b ticks w)) = outbox w ++ new
                  /\ (length new <= length ids)%nat)
  /\ (stories w = ∅ -> edits (outbox (final (run E b ticks w))) = edits (outbox w)).
Proof.
  intros Htop Hid Hst Hit Hin Hans Hok.
  set (w0 := with_logs (logs w ++ [LogBotStarted]) w).
  assert (Hpoll : returns (poll E b w0) = false).
  { unfold poll, getTopStories, bind, ret. rewrite Htop.
    pose proof (goEach_accepted_parks id story r 3 ids Hid Hit Hin Hans Hok w0 Hst) as Hp.
    destruct (goEach (pollItem E b) 3 ids w0) as [[] w1|w1]; [discriminate Hp | reflexivity]. }
  assert (Hrun : run E b ticks w = Parked (final (poll E b w0))).
  { unfold run, bind, logPrintf, modify.
    change (with_logs (logs w ++ [LogBotStarted]) w) with w0.
    destruct (poll E b w0) as [a w1|w1]; [discriminate Hpoll | reflexivity]. }
  rewrite Hrun. cbn [returns final]. split; [reflexivity|]. split; [|split].
  - destruct (settles_poll E b w0) as ([(_ & _ & Hn) | (_ & _ & Hn & _)] & _); exact Hn.
  - destruct (poll_posts_per_candidate E b w0) as (per & Hout & Hfor).
    exists (concat per). split; [exact Hout|].
    unfold candidates in Hfor. rewrite Htop in Hfor.
    exact (concat_length_bound _ ids per Hfor).
  - intros Hempty. unfold poll, getTopStories, bind, ret. rewrite Htop.
    pose proof (goEach_posts_no_edit 3 ids w0 (or_introl Hempty)) as Hed.
    destruct (goEach (pollItem E b) 3 ids w0) as [[] w1|w1]; exact Hed.
Qed.

End TwoCycles.

Lemma first_send_stalls_the_bot_witness :
  shouldIgnore story80 = false /\ shouldIgnore story81 = false
  /\ returns (run (friendly [1; 2] both) channel [PollTick (5 * Minute)] idle_world) = false
  /\ snapshot (final (run (friendly [1; 2] both) channel [PollTick (5 * Minute)] idle_world))
     = Absent
  /\ edits (outbox (final (run (friendly [1; 2] both) channel [PollTick (5 * Minute)]
                             idle_world))) = [].
Proof.
  destruct (first_send_stalls_the_bot (friendly [1; 2] both) channel 2 [1; 2] story81
              (accepted 100) [PollTick (5 * Minute)] idle_world
              eq_refl (or_intror (or_introl eq_refl)) eq_refl eq_refl eq_refl eq_refl eq_refl)
    as (Hret & Hsn & _ & Hed).
  exact (conj eq_refl (conj eq_refl (conj Hret (conj Hsn (Hed eq_refl))))).
Defined.
